(** * my.core.query: a shallow embedding of the query pipeline

    The development follows [src/my/core/query.py].  Python values are
    embedded in one inductive type, closures built by the order function
    factory are defunctionalised, iterators are streams that may end in a
    pending exception, and warnings are collected in a log. *)

From Stdlib Require Import ZArith Ascii String List Lia OrderedTypeEx.
From stdpp Require Import base list sorting strings.

Local Open Scope string_scope.
Local Open Scope list_scope.
Set Warnings "-register-all".

(** ** Values *)

(** The three shapes of user-defined records the attribute locator tells
    apart: dataclasses, NamedTuples and plain objects. *)
Inductive kind := KDataclass | KNamedTuple | KPlain.

(** Python values.  [VErr] is an exception instance carried in the stream
    (the Err case of Res), [VDict] a dict with string keys in insertion
    order, [VObj] an instance of a user class with its declared fields (in
    declaration order) and its further readable attributes (properties,
    class attributes), [VUnsortable] the NamedTuple [Unsortable(obj)], and
    [VOpaque] any other object (a bound method, a class, ...) identified by
    a name.  Floats are left out. *)
Inductive value : Type :=
| VNone
| VInt (z : Z)
| VStr (s : string)
| VDatetime (t : Z)
| VOpaque (name : string)
| VErr (cls msg : string)
| VDict (entries : list (string * value))
| VObj (k : kind) (cls : string) (fields others : list (string * value))
| VUnsortable (obj : value).

(** Pieces of an f-string: literal text, [str(v)] and [type(v)]. *)
Inductive fragment :=
| Lit (s : string)
| StrOf (v : value)
| TypeOf (v : value)
| Newline.

Definition message := list fragment.

Inductive pyclass :=
| CNoneType | CInt | CStr | CDatetime | CDict | CUnsortable
| COpaque (name : string)
| CExc (cls : string)
| CUser (k : kind) (cls : string).

(** What [_determine_order_by_value_key] returns: a class, or the tuple of
    the keys of a dict. *)
Inductive shape_key :=
| SKClass (c : pyclass)
| SKKeys (ks : list string).

#[global] Instance kind_eq_dec : EqDecision kind.
Proof. solve_decision. Defined.
#[global] Instance pyclass_eq_dec : EqDecision pyclass.
Proof. solve_decision. Defined.
#[global] Instance shape_key_eq_dec : EqDecision shape_key.
Proof. solve_decision. Defined.

Inductive exn :=
| Reraised (err : value)                 (* [raise o] for an Err item [o] *)
| AttributeError (obj : value) (attr : string)
| TypeError (msg : message)
| KeyError (key : shape_key)
| ValueError (msg : message)
| AssertionError
| QueryException (msg : message).

(** Diagnostics: [low] and [medium] of my.core.warnings, and a call of the
    user's [warn_func]. *)
Inductive diag :=
| Low (msg : message)
| Medium (msg : message)
| Callback (name : string) (err : value).

(** ** Results and the warning log *)

Inductive res (A : Type) : Type :=
| Ok (a : A)
| Raise (e : exn).
Arguments Ok {A} a.
Arguments Raise {A} e.

#[global] Instance res_ret : MRet res := fun A a => Ok a.
#[global] Instance res_bind : MBind res := fun A B k m =>
  match m with
  | Ok a => k a
  | Raise e => Raise e
  end.
#[global] Instance res_fmap : FMap res := fun A B f m =>
  match m with
  | Ok a => Ok (f a)
  | Raise e => Raise e
  end.

(** A computation that may warn and may raise.  The log holds the
    diagnostics stage by stage, those of a lazily evaluated stage as if
    its result were consumed to the end; how the warnings of different
    stages interleave in time is not tracked. *)
Definition M (A : Type) : Type := (list diag * res A)%type.

#[global] Instance M_ret : MRet M := fun A a => ([], Ok a).
#[global] Instance M_bind : MBind M := fun A B k m =>
  match m with
  | (l, Ok a) => let '(l', r) := k a in ((l ++ l')%list, r)
  | (l, Raise e) => (l, Raise e)
  end.

Definition warn (d : diag) : M unit := ([d], Ok tt).
Definition low (msg : message) : M unit := warn (Low msg).
Definition throw {A} (e : exn) : M A := ([], Raise e).
Definition lift {A} (r : res A) : M A := ([], r).

(** ** The interpreter's part

    Attributes that the interpreter gives to a value (methods of dict and
    tuple, dunder attributes, ...) and the effect of calling an attribute
    are not fixed by the repository; the development is parametric in
    them. *)
Class Interp := {
  builtin_attrs : value -> list (string * value);
  py_call : value -> list value -> res value
}.

Definition is_exception (v : value) : bool :=
  match v with VErr _ _ => true | _ => false end.

Definition is_dict (v : value) : bool :=
  match v with VDict _ => true | _ => false end.

Definition is_unsortable (v : value) : bool :=
  match v with VUnsortable _ => true | _ => false end.

Definition is_none (v : value) : bool :=
  match v with VNone => true | _ => false end.

Definition is_dataclass (v : value) : bool :=
  match v with VObj KDataclass _ _ _ => true | _ => false end.

(** Modelled from the spec: my.core.types.is_namedtuple is not among the
    sources; a structured record with fixed named fields produced by
    NamedTuple, which includes [Unsortable] itself. *)
Definition is_namedtuple (v : value) : bool :=
  match v with
  | VObj KNamedTuple _ _ _ | VUnsortable _ => true
  | _ => false
  end.

Fixpoint assoc (k : string) (l : list (string * value)) : option value :=
  match l with
  | [] => None
  | (k', v) :: l' => if String.eqb k' k then Some v else assoc k l'
  end.

(** Fields of a record: [__annotations__] of a dataclass, [_fields] of a
    NamedTuple. *)
Definition declared_fields (v : value) : list (string * value) :=
  match v with
  | VObj _ _ fields _ => fields
  | VUnsortable o => [("obj", o)]
  | _ => []
  end.

Definition own_attrs (v : value) : list (string * value) :=
  match v with
  | VObj _ _ fields others => fields ++ others
  | VUnsortable o => [("obj", o)]
  | _ => []
  end.

(** ** Order functions

    The closures the factory returns, defunctionalised:
    [lambda o: o.get(k, default)], [lambda o: getattr(o, k, default)] and
    [lambda _o: v]. *)
Inductive extractor :=
| EGet (k : string) (default : value)
| EGetattr (k : string) (default : value)
| EConst (v : value).

Definition Where := value -> bool.

(** An OrderFunc: a function of the caller (taken as total), a closure of
    the factory, or the dispatch closure of [_generate_order_value_func]
    over its [order_by_lookup] dict. *)
Inductive orderfunc :=
| OFUser (f : value -> value)
| OFExtract (e : extractor)
| OFDispatch (order_by_lookup : list (shape_key * extractor)).

Definition class_of (v : value) : pyclass :=
  match v with
  | VNone => CNoneType
  | VInt _ => CInt
  | VStr _ => CStr
  | VDatetime _ => CDatetime
  | VOpaque n => COpaque n
  | VErr cls _ => CExc cls
  | VDict _ => CDict
  | VObj k cls _ _ => CUser k cls
  | VUnsortable _ => CUnsortable
  end.

Definition _determine_order_by_value_key (obj_res : value) : shape_key :=
  match obj_res with
  | VDict entries => SKKeys entries.*1
  | _ => SKClass (class_of obj_res)
  end.

Fixpoint lookup_shape (key : shape_key) (t : list (shape_key * extractor))
    : option extractor :=
  match t with
  | [] => None
  | (k, f) :: t' => if decide (k = key) then Some f else lookup_shape key t'
  end.

(** The first pair of a scan whose value satisfies the predicate. *)
Fixpoint first_match (where_ : Where) (kvs : list (string * value))
    : option string :=
  match kvs with
  | [] => None
  | (k, v) :: kvs' => if where_ v then Some k else first_match where_ kvs'
  end.

Definition exception_diag (obj_res : value) : message :=
  [ Lit "While creating order_by function, encountered exception '";
    TypeOf obj_res; Lit ": "; StrOf obj_res; Lit "'"; Newline;
    Lit "Value to order_by unknown, provide a 'default', filter exceptions with a 'where' predicate or";
    Newline;
    Lit "pass 'drop_exceptions' to ignore exceptions" ].

(** ** Iterators

    An iterator yields its items and then either stops or raises. *)
Record stream := Stream { items : list value; fault : option exn }.

Definition iter_list (xs : list value) : stream := Stream xs None.

Definition yield_first (o : value) (s : stream) : stream :=
  Stream (o :: items s) (fault s).

(** [list(itr)] *)
Definition consume (s : stream) : res (list value) :=
  match fault s with
  | Some e => Raise e
  | None => Ok (items s)
  end.

(** The peeked item is Python's [None] when the iterator is exhausted. *)
Definition _peek_iter (itr : stream) : res (value * stream) :=
  match items itr with
  | first_item :: _ => Ok (first_item, itr)
  | [] =>
      match fault itr with
      | Some e => Raise e
      | None => Ok (VNone, itr)
      end
  end.

(** ** The built-in [sorted]

    Only values of one of the types int, str and datetime are ordered by
    [<]; every other comparison is a TypeError (its message, which names
    the two types, is left out).  Comparison of tuples is not modelled. *)
Definition py_lt (a b : value) : res bool :=
  match a, b with
  | VInt x, VInt y => Ok (x <? y)%Z
  | VStr x, VStr y => Ok (String.ltb x y)
  | VDatetime x, VDatetime y => Ok (x <? y)%Z
  | _, _ => Raise (TypeError [Lit "'<' not supported between instances"])
  end.

(** Stable insertion of a (key, item) pair into a sorted list: after every
    pair whose key is not greater. *)
Fixpoint insert_by_key (x : value * value) (acc : list (value * value))
    : res (list (value * value)) :=
  match acc with
  | [] => Ok [x]
  | y :: acc' =>
      lt ← py_lt x.1 y.1;
      if (lt : bool) then Ok (x :: y :: acc')
      else (y ::.) <$> insert_by_key x acc'
  end.

Fixpoint sort_by_key (l acc : list (value * value))
    : res (list (value * value)) :=
  match l with
  | [] => Ok acc
  | x :: l' => acc' ← insert_by_key x acc; sort_by_key l' acc'
  end.

Fixpoint decorate (key : value -> res value) (xs : list value)
    : res (list (value * value)) :=
  match xs with
  | [] => Ok []
  | x :: xs' => k ← key x; ((k, x) ::.) <$> decorate key xs'
  end.

(** [sorted(itr, key=key, reverse=reverse)]: the iterator is exhausted,
    the keys are computed once, and the list is sorted stably; a reverse
    sort reverses the list, sorts it and reverses the result, which keeps
    equal keys in their original order. *)
Definition sorted (itr : stream) (key : value -> res value) (reverse_ : bool)
    : res (list value) :=
  xs ← consume itr;
  keyed ← decorate key xs;
  out ← sort_by_key (if reverse_ then rev keyed else keyed) [];
  Ok ((if reverse_ then rev out else out).*2).

(** ** my.core.error *)
Module err.

(** Modelled from the spec: my.core.error.raise_exceptions is not among the
    sources; it re-raises the first Err encountered, aborting the
    pipeline. *)
Fixpoint raise_exceptions_loop (xs : list value) (stop : option exn) : stream :=
  match xs with
  | [] => Stream [] stop
  | o :: xs' =>
      if is_exception o then Stream [] (Some (Reraised o))
      else yield_first o (raise_exceptions_loop xs' stop)
  end.

Definition raise_exceptions (itr : stream) : stream :=
  raise_exceptions_loop (items itr) (fault itr).

(** Modelled from the spec: my.core.error.drop_exceptions is not among the
    sources; it removes the Err items from the stream. *)
Definition drop_exceptions (itr : stream) : stream :=
  Stream (List.filter (fun o => negb (is_exception o)) (items itr)) (fault itr).

(** Modelled from the spec: my.core.error.warn_exceptions is not among the
    sources; it emits a diagnostic per Err, through the supplied callback
    or the default mechanism, and keeps the item in the stream. *)
Definition warn_exceptions (itr : stream) (warn_func : option string) : M stream :=
  ( omap (fun o =>
            if is_exception o then
              Some (match warn_func with
                    | Some f => Callback f o
                    | None => Medium [StrOf o]
                    end)
            else None) (items itr),
    Ok itr ).

End err.

(** [filter(where, itr)] *)
Definition py_filter (where_ : Where) (itr : stream) : stream :=
  Stream (List.filter where_ (items itr)) (fault itr).

(** [more_itertools.always_reversible] on an iterator: [reversed(list(itr))] *)
Definition always_reversible (itr : stream) : res stream :=
  xs ← consume itr; Ok (iter_list (rev xs)).

Definition chain (a b : stream) : stream :=
  match fault a with
  | Some e => a
  | None => Stream (items a ++ items b) (fault b)
  end.

(** [itertools.islice(itr, limit)]: at most [limit] items are pulled. *)
Definition islice (itr : stream) (limit : Z) : res stream :=
  if (limit <? 0)%Z then
    Raise (ValueError [Lit "Stop argument for islice() must be None or an integer: 0 <= x <= sys.maxsize."])
  else if (Z.to_nat limit <=? length (items itr))%nat then
    Ok (iter_list (take (Z.to_nat limit) (items itr)))
  else Ok itr.

(** ** The source and the keyword arguments of [select] *)

Inductive iterand :=
| Iterable (xs : list value)
| NotIterable (type_name : string).

(** [src] is an object, or a callable returning one. *)
Inductive source :=
| Given (it : iterand)
| Producer (it : iterand).

(** [where] is a keyword of Rocq, and [default] and [reverse] are names of
    stdpp, hence the underscores. *)
Record select_args := {
  where_ : option Where;
  order_by : option (value -> value);
  order_key : option string;
  order_value : option Where;
  default_ : value;
  reverse_ : bool;
  limit : option Z;
  drop_unsorted : bool;
  wrap_unsorted : bool;
  warn_exceptions : bool;
  warn_func : option string;
  drop_exceptions : bool;
  raise_exceptions : bool
}.

(** ** Attribute access, the factory and the pipeline *)

Section Python.
Context `{Interp}.

Definition all_attrs (v : value) : list (string * value) :=
  own_attrs v ++ builtin_attrs v.

(** [getattr(o, k)]; [None] stands for AttributeError. *)
Definition py_getattr (o : value) (k : string) : option value :=
  assoc k (all_attrs o).

Definition hasattr (o : value) (k : string) : bool :=
  match py_getattr o k with Some _ => true | None => false end.

(** [getattr(o, k, default)] *)
Definition getattr_default (o : value) (k : string) (default : value) : value :=
  from_option id default (py_getattr o k).

(** [key in obj] for a dict *)
Definition dict_contains (o : value) (k : string) : bool :=
  match o with
  | VDict entries => match assoc k entries with Some _ => true | None => false end
  | _ => false
  end.

(** [o.get(k, default)]: the dict method on a dict; on anything else the
    attribute [get] is looked up and called. *)
Definition dict_get (o : value) (k : string) (default : value) : res value :=
  match o with
  | VDict entries => Ok (from_option id default (assoc k entries))
  | _ =>
      match py_getattr o "get" with
      | None => Raise (AttributeError o "get")
      | Some m => py_call m [VStr k; default]
      end
  end.

Fixpoint insert_name (n : string) (l : list string) : list string :=
  match l with
  | [] => [n]
  | m :: l' => if String.leb n m then n :: m :: l' else m :: insert_name n l'
  end.

(** [dir(o)]: the attribute names, each once, in alphabetical order. *)
Definition py_dir (o : value) : list string :=
  foldr insert_name [] (remove_dups (all_attrs o).*1).

(** [inspect.getmembers(o)] *)
Definition getmembers (o : value) : list (string * value) :=
  omap (fun n => (n,.) <$> py_getattr o n) (py_dir o).


Definition apply_extractor (e : extractor) (o : value) : res value :=
  match e with
  | EGet k default => dict_get o k default
  | EGetattr k default => Ok (getattr_default o k default)
  | EConst v => Ok v
  end.

Definition apply_orderfunc (f : orderfunc) (o : value) : res value :=
  match f with
  | OFUser g => Ok (g o)
  | OFExtract e => apply_extractor e o
  | OFDispatch order_by_lookup =>
      let key := _determine_order_by_value_key o in
      match lookup_shape key order_by_lookup with
      | Some e => apply_extractor e o
      | None => Raise (KeyError key)
      end
  end.

Definition attribute_func (obj : value) (where_ : Where) (default : value)
    : option extractor :=
  let by_shape :=
    match obj with
    | VDict entries => (fun k => EGet k default) <$> first_match where_ entries
    | _ =>
        if is_dataclass obj then
          (fun field_name => EGetattr field_name default)
            <$> first_match where_ (declared_fields obj)
        else if is_namedtuple obj then
          (fun field_name => EGetattr field_name default)
            <$> first_match where_ (declared_fields obj)
        else None
    end in
  match by_shape with
  | Some f => Some f
  | None =>
      (fun k => EGetattr k default) <$> first_match where_ (getmembers obj)
  end.

Definition _generate_order_by_func (obj_res : value) (key : option string)
    (where_function : option Where) (default : value)
    (force_unsortable : bool) : M (option extractor) :=
  if is_exception obj_res then
    if negb (is_none default) then mret (Some (EConst default))
    else
      _ ← low (exception_diag obj_res);
      mret (Some (EConst VNone))
  else
    let obj := obj_res in
    let by_key :=
      match key with
      | Some key =>
          if is_dict obj then
            if dict_contains obj key then Some (EGet key default) else None
          else
            if hasattr obj key then Some (EGetattr key default) else None
      | None => None
      end in
    match by_key with
    | Some f => mret (Some f)
    | None =>
        let by_where :=
          match where_function with
          | Some w => attribute_func obj w default
          | None => None
          end in
        match by_where with
        | Some func => mret (Some func)
        | None =>
            if negb (is_none default) then mret (Some (EConst default))
            else if force_unsortable then mret (Some (EConst VNone))
            else mret None
        end
    end.

Fixpoint _drop_unsorted_loop (xs : list value) (stop : option exn)
    (orderfunc : orderfunc) : stream :=
  match xs with
  | [] => Stream [] stop
  | o :: xs' =>
      if is_unsortable o then _drop_unsorted_loop xs' stop orderfunc
      else
        match apply_orderfunc orderfunc o with
        | Raise e => Stream [] (Some e)
        | Ok ordval =>
            if is_none ordval then _drop_unsorted_loop xs' stop orderfunc
            else yield_first o (_drop_unsorted_loop xs' stop orderfunc)
        end
  end.

Definition _drop_unsorted (itr : stream) (orderfunc : orderfunc) : stream :=
  _drop_unsorted_loop (items itr) (fault itr) orderfunc.

(** The loop of [_wrap_unsorted] over the items, appending to the two
    lists. *)
Fixpoint _wrap_unsorted_loop (xs : list value) (orderfunc : orderfunc)
    (unsortable sortable : list value) : res (list value * list value) :=
  match xs with
  | [] => Ok (unsortable, sortable)
  | o :: xs' =>
      if is_unsortable o then
        _wrap_unsorted_loop xs' orderfunc (unsortable ++ [o]) sortable
      else
        ordval ← apply_orderfunc orderfunc o;
        if is_none ordval then
          _wrap_unsorted_loop xs' orderfunc (unsortable ++ [VUnsortable o]) sortable
        else
          _wrap_unsorted_loop xs' orderfunc unsortable (sortable ++ [o])
  end.

Definition _wrap_unsorted (itr : stream) (orderfunc : orderfunc)
    : res (stream * stream) :=
  '(unsortable, sortable) ← _wrap_unsorted_loop (items itr) orderfunc [] [];
  match fault itr with
  | Some e => Raise e
  | None => Ok (iter_list unsortable, iter_list sortable)
  end.

Definition _handle_unsorted (itr : stream) (orderfunc : orderfunc)
    (drop_unsorted wrap_unsorted : bool) : res (stream * stream) :=
  if drop_unsorted then Ok (iter_list [], _drop_unsorted itr orderfunc)
  else if wrap_unsorted then _wrap_unsorted itr orderfunc
  else Ok (iter_list [], itr).

(** The loop of [_generate_order_value_func] filling [order_by_lookup]. *)
Fixpoint _generate_order_value_loop (xs : list value) (order_value : Where)
    (default : value) (order_by_lookup : list (shape_key * extractor))
    : M (list (shape_key * extractor)) :=
  match xs with
  | [] => mret order_by_lookup
  | obj_res :: xs' =>
      let key := _determine_order_by_value_key obj_res in
      match lookup_shape key order_by_lookup with
      | Some _ => _generate_order_value_loop xs' order_value default order_by_lookup
      | None =>
          keyfunc ← _generate_order_by_func obj_res None (Some order_value)
                      default true;
          match keyfunc with
          | None => throw AssertionError
          | Some keyfunc =>
              _generate_order_value_loop xs' order_value default
                (order_by_lookup ++ [(key, keyfunc)])
          end
      end
  end.

Definition _generate_order_value_func (itr : stream) (order_value : Where)
    (default : value) : M orderfunc :=
  order_by_lookup ← _generate_order_value_loop (items itr) order_value default [];
  match fault itr with
  | Some e => throw e
  | None => mret (OFDispatch order_by_lookup)
  end.

Definition _handle_generate_order_by (itr : stream)
    (order_by : option (value -> value)) (order_key : option string)
    (order_value : option Where) (default : value)
    : M (option orderfunc * stream) :=
  match order_by with
  | Some f => mret (Some (OFUser f), itr)
  | None =>
  match order_key with
  | Some order_key =>
      '(first_item, itr) ← lift (_peek_iter itr);
      if is_none first_item then mret (None, itr)
      else
        order_by_chosen ← _generate_order_by_func first_item (Some order_key)
                            None default false;
        match order_by_chosen with
        | None =>
            throw (QueryException
                     [ Lit "Error while ordering: could not find ";
                       Lit order_key; Lit " on "; StrOf first_item ])
        | Some e => mret (Some (OFExtract e), itr)
        end
  | None =>
  match order_value with
  | Some order_value =>
      (* itertools.tee: both copies replay the same iterator *)
      order_by_chosen ← _generate_order_value_func itr order_value default;
      mret (Some order_by_chosen, itr)
  | None =>
      throw (QueryException
               [ Lit "Could not determine a way to order src iterable - at least one of the order args must be set" ])
  end end end.


(** [src] called when it is callable; a warning when it is neither
    callable nor an Iterable. *)
Definition select_source (src : source) : M iterand :=
  match src with
  | Producer it => mret it
  | Given (Iterable xs) => mret (Iterable xs)
  | Given (NotIterable type_name) =>
      _ ← low [ Lit "Input was neither a function, or some iterable"; Newline;
                Lit "Expected 'src' to be an Iterable, but found ";
                Lit type_name; Lit "..."; Newline;
                Lit "Will attempt to call iter() on the value" ];
      mret (NotIterable type_name)
  end.

(** [iter(it)], a TypeError turned into a QueryException *)
Definition select_iter (it : iterand) : M stream :=
  match it with
  | Iterable xs => mret (iter_list xs)
  | NotIterable type_name =>
      throw (QueryException
               [ Lit "Could not convert input src to an Iterator: ";
                 Lit "'"; Lit type_name; Lit "' object is not iterable" ])
  end.

(** The error policies and the [where] filter, in the order of the code. *)
Definition select_policies (a : select_args) (itr : stream) : M stream :=
  let itr := if raise_exceptions a then err.raise_exceptions itr else itr in
  let itr := if drop_exceptions a then err.drop_exceptions itr else itr in
  itr ← (if warn_exceptions a then err.warn_exceptions itr (warn_func a)
         else mret itr);
  mret (match where_ a with
        | Some w => py_filter w itr
        | None => itr
        end).

Definition select_limit (a : select_args) (itr : stream) : M stream :=
  match limit a with
  | Some l => lift (islice itr l)
  | None => mret itr
  end.

Definition ordering_requested (a : select_args) : bool :=
  match order_by a, order_key a, order_value a with
  | None, None, None => false
  | _, _, _ => true
  end.

(** The stream that reaches the ordering stage: the source is turned
    into an iterator and the error policies and the filter are applied. *)
Definition select_filtered (src : source) (a : select_args) : M stream :=
  it ← select_source src;
  itr ← select_iter it;
  select_policies a itr.

(** The branch of [select] taken when an ordering argument is given. *)
Definition select_ordered (a : select_args) (itr : stream) : M stream :=
  '(order_by_chosen, itr) ←
    _handle_generate_order_by itr (order_by a) (order_key a)
      (order_value a) (default_ a);
  match order_by_chosen with
  | None => mret itr
  | Some order_by_chosen =>
      '(unsortable, itr) ←
        lift (_handle_unsorted itr order_by_chosen (drop_unsorted a)
                (wrap_unsorted a));
      ordered ← lift (sorted itr (apply_orderfunc order_by_chosen) (reverse_ a));
      let itr := iter_list ordered in
      let itr := if reverse_ a then chain itr unsortable
                 else chain unsortable itr in
      select_limit a itr
  end.

(** The branch taken when none is given. *)
Definition select_unordered (a : select_args) (itr : stream) : M stream :=
  itr ← (if reverse_ a then lift (always_reversible itr) else mret itr);
  select_limit a itr.

Definition select (src : source) (a : select_args) : M stream :=
  itr ← select_filtered src a;
  if ordering_requested a then select_ordered a itr
  else select_unordered a itr.

End Python.

(** ** Notions the properties are stated with *)

Definition iterand_of (src : source) : iterand :=
  match src with Given it | Producer it => it end.

(** An output item accounts for an input item: it is that item, or the
    marker wrapping it. *)
Definition wrapped_as (i o : value) : Prop :=
  o = i \/ (o = VUnsortable i /\ is_unsortable i = false).

(** A marker does not wrap a marker. *)
Definition well_wrapped (o : value) : bool :=
  match o with
  | VUnsortable (VUnsortable _) => false
  | _ => true
  end.

(** The items that survive the error policies and the filter, following
    the spec's words: raise stops at the first Err, drop removes the Err
    items, [where] keeps the items that satisfy it. *)
Fixpoint until_error (xs : list value) : list value :=
  match xs with
  | [] => []
  | o :: xs' => if is_exception o then [] else o :: until_error xs'
  end.

Definition surviving (a : select_args) (xs : list value) : list value :=
  List.filter
    (fun o => (negb (drop_exceptions a) || negb (is_exception o))
              && match where_ a with Some w => w o | None => true end)
    (if raise_exceptions a then until_error xs else xs).

Definition truncate (limit : option Z) (xs : list value) : list value :=
  match limit with
  | Some l => take (Z.to_nat l) xs
  | None => xs
  end.

(** The values [<] orders, as keys with decidable equality. *)
Inductive okey := KInt (z : Z) | KStr (s : string) | KDate (t : Z).

#[global] Instance okey_eq_dec : EqDecision okey.
Proof. solve_decision. Defined.





(** Each pair holds an item and its key. *)
Definition decorated (key : value -> res value) (l : list (value * value))
    : Prop :=
  Forall (fun p => key p.2 = Ok p.1) l.




Section Notions.
Context `{Interp}.



(** The key is found on the item: a key of the mapping, or a readable
    attribute of any other record. *)
Definition key_found (obj : value) (key : string) : bool :=
  if is_dict obj then dict_contains obj key else hasattr obj key.

(** The order function reports absence on the item. *)
Definition key_is_none (f : orderfunc) (o : value) : bool :=
  match apply_orderfunc f o with
  | Ok v => is_none v
  | Raise _ => false
  end.

Definition unplaced (f : orderfunc) (o : value) : bool :=
  is_unsortable o || key_is_none f o.

(** The two lists of the wrap mode, following the spec's words: the items
    the order function cannot place, each wrapped in a marker unless it
    is one already, and the remainder, both in their original order. *)
Definition unsorted_part (f : orderfunc) (xs : list value) : list value :=
  (fun o => if is_unsortable o then o else VUnsortable o)
    <$> List.filter (unplaced f) xs.

Definition sorted_part (f : orderfunc) (xs : list value) : list value :=
  List.filter (fun o => negb (unplaced f o)) xs.

(** The items set aside and the items sorted, by mode. *)
Definition set_aside (a : select_args) (f : orderfunc) (xs : list value)
    : list value :=
  if drop_unsorted a then []
  else if wrap_unsorted a then unsorted_part f xs else [].

Definition to_sort (a : select_args) (f : orderfunc) (xs : list value)
    : list value :=
  if drop_unsorted a || wrap_unsorted a then sorted_part f xs else xs.


(** The order function places the item: it is no marker and its order
    value is not None. *)
Definition placed (f : orderfunc) (o : value) : Prop :=
  is_unsortable o = false
  /\ exists v, apply_orderfunc f o = Ok v /\ is_none v = false.

End Notions.

(** ** Locating a function by name

    What the import system provides: a module with the members that
    [inspect.getmembers] lists (sorted by name) and the attributes that a
    module-level [__getattr__] computes, or the exception that importing
    or the attribute lookup raises; and the predicates
    [inspect.isfunction] and [callable]. *)
Record pymodule := PyModule {
  mod_members : list (string * value);
  mod_dynamic : string -> value + option value
}.

Class Importer := {
  import_module : string -> value + pymodule;
  isfunction : value -> bool;
  callable : value -> bool
}.

(** [getattr(mod, name, None)]; [inl e] when the lookup raises [e]. *)
Definition module_getattr (mod_ : pymodule) (name : string) : value + value :=
  match assoc name (mod_members mod_) with
  | Some v => inr v
  | None =>
      match mod_dynamic mod_ name with
      | inl e => inl e
      | inr (Some v) => inr v
      | inr None => inr VNone
      end
  end.

(** [c in s] for a one-character string [c] *)
Fixpoint contains_char (c : Ascii.ascii) (s : string) : bool :=
  match s with
  | EmptyString => false
  | String c' s' => Ascii.eqb c' c || contains_char c s'
  end.

(** [s.rindex(c)]; [None] stands for ValueError. *)
Fixpoint rindex (c : Ascii.ascii) (s : string) : option nat :=
  match s with
  | EmptyString => None
  | String c' s' =>
      match rindex c s' with
      | Some i => Some (S i)
      | None => if Ascii.eqb c' c then Some 0 else None
      end
  end.

(** The slices [s[:i]] and [s[i:]] *)
Definition slice_to (i : nat) (s : string) : string := String.substring 0 i s.
Definition slice_from (i : nat) (s : string) : string :=
  String.substring i (String.length s - i) s.

Section Locate.
Context `{Importer}.

Definition locate_function (module_name function_name : string) : res value :=
  match import_module module_name with
  | inl e => Raise (QueryException [StrOf e])
  | inr mod_ =>
      match List.find (fun m => isfunction m.2 && String.eqb m.1 function_name)
              (mod_members mod_) with
      | Some (_, f) => Ok f
      | None =>
          match module_getattr mod_ function_name with
          | inl e => Raise (QueryException [StrOf e])
          | inr func =>
              if negb (is_none func) && callable func then Ok func
              else
                Raise (QueryException
                         [ Lit "Could not find function '"; Lit function_name;
                           Lit "' in '"; Lit module_name; Lit "'" ])
          end
      end
  end.

Definition locate_qualified_function (qualified_name : string) : res value :=
  if negb (contains_char "."%char qualified_name) then
    Raise (QueryException
             [Lit "Could not find a '.' in the function name, e.g. my.reddit.rexport.comments"])
  else
    match rindex "."%char qualified_name with
    | None => Raise (ValueError [Lit "substring not found"])
    | Some rdot_index =>
        locate_function (slice_to rdot_index qualified_name)
          (slice_from (rdot_index + 1) qualified_name)
    end.

End Locate.

(** ** Further notions *)

(** The keys of a mapping, or the declared field names of a record. *)
Definition record_names (obj : value) : list string :=
  match obj with
  | VDict entries => entries.*1
  | _ => (declared_fields obj).*1
  end.


Section MoreNotions.
Context `{Interp}.

(** The pairs [attribute_func] scans, in the order it scans them. *)
Definition scanned (obj : value) : list (string * value) :=
  match obj with
  | VDict entries => entries
  | _ =>
      if is_dataclass obj || is_namedtuple obj then declared_fields obj
      else []
  end ++ getmembers obj.

(** The order function is defined on the item, unless it is a marker. *)
Definition keyed (f : orderfunc) (o : value) : Prop :=
  is_unsortable o = true \/ exists v, apply_orderfunc f o = Ok v.


End MoreNotions.

(** ** Concrete inputs *)

(** An interpreter in which built-in values have no attributes of their
    own and attribute values are not callable. *)
Definition bare : Interp := {|
  builtin_attrs := fun _ => [];
  py_call := fun m _ => Raise (TypeError [TypeOf m; Lit " object is not callable"])
|}.

(** An import system with one module, [my.demo], that defines the
    function [items] and the constant [LIMIT], and computes the attribute
    [lazy_items] in a module-level [__getattr__]. *)
Definition is_function_object (v : value) : bool :=
  match v with
  | VOpaque name => String.prefix "function " name
  | _ => false
  end.

Definition one_module : Importer := {|
  import_module := fun name =>
    if String.eqb name "my.demo" then
      inr (PyModule
             [ ("LIMIT", VInt 10); ("items", VOpaque "function items") ]
             (fun attr =>
                if String.eqb attr "lazy_items"
                then inr (Some (VOpaque "function lazy_items"))
                else inr None))
    else inl (VErr "ModuleNotFoundError" ("No module named '" ++ name ++ "'"));
  isfunction := is_function_object;
  callable := is_function_object
|}.

(** The defaults of the keyword arguments of [select]. *)
Definition kwargs : select_args := {|
  where_ := None; order_by := None; order_key := None; order_value := None;
  default_ := VNone; reverse_ := false; limit := None;
  drop_unsorted := false; wrap_unsorted := true;
  warn_exceptions := false; warn_func := None;
  drop_exceptions := false; raise_exceptions := false
|}.

Definition _Int (x : Z) : value := VObj KNamedTuple "_Int" [("x", VInt x)] [].
Definition _A (x y z : Z) : value :=
  VObj KNamedTuple "_A" [("x", VDatetime x); ("y", VInt y); ("z", VInt z)] [].
Definition _B (y : Z) : value := VObj KNamedTuple "_B" [("y", VDatetime y)] [].

(** The records of [_mixed_iter], with a datetime written as year and
    month. *)
Definition _mixed_iter : list value :=
  [ _A 200905 5 10; _B 201505; _A 200505 10 2; _A 200903 12 1; _B 199505;
    _A 200504 2 (-5) ].

Definition _mixed_iter_errors : list value :=
  take 3 _mixed_iter ++ [VErr "RuntimeError" "Unhandled error!"] ++ drop 3 _mixed_iter.

Definition is_datetime (v : value) : bool :=
  match v with VDatetime _ => true | _ => false end.

Definition with_where w a := {|
  where_ := Some w; order_by := order_by a; order_key := order_key a;
  order_value := order_value a; default_ := default_ a; reverse_ := reverse_ a;
  limit := limit a; drop_unsorted := drop_unsorted a; wrap_unsorted := wrap_unsorted a;
  warn_exceptions := warn_exceptions a; warn_func := warn_func a;
  drop_exceptions := drop_exceptions a; raise_exceptions := raise_exceptions a |}.

Definition with_reverse (b : bool) (a : select_args) : select_args := {|
  where_ := where_ a; order_by := order_by a; order_key := order_key a;
  order_value := order_value a; default_ := default_ a; reverse_ := b;
  limit := limit a; drop_unsorted := drop_unsorted a;
  wrap_unsorted := wrap_unsorted a; warn_exceptions := warn_exceptions a;
  warn_func := warn_func a; drop_exceptions := drop_exceptions a;
  raise_exceptions := raise_exceptions a |}.

Definition with_order_key (k : string) (a : select_args) : select_args := {|
  where_ := where_ a; order_by := order_by a; order_key := Some k;
  order_value := order_value a; default_ := default_ a; reverse_ := reverse_ a;
  limit := limit a; drop_unsorted := drop_unsorted a;
  wrap_unsorted := wrap_unsorted a; warn_exceptions := warn_exceptions a;
  warn_func := warn_func a; drop_exceptions := drop_exceptions a;
  raise_exceptions := raise_exceptions a |}.

Definition with_order_by (g : value -> value) (a : select_args) : select_args := {|
  where_ := where_ a; order_by := Some g; order_key := order_key a;
  order_value := order_value a; default_ := default_ a; reverse_ := reverse_ a;
  limit := limit a; drop_unsorted := drop_unsorted a;
  wrap_unsorted := wrap_unsorted a; warn_exceptions := warn_exceptions a;
  warn_func := warn_func a; drop_exceptions := drop_exceptions a;
  raise_exceptions := raise_exceptions a |}.

Definition with_limit (l : Z) (a : select_args) : select_args := {|
  where_ := where_ a; order_by := order_by a; order_key := order_key a;
  order_value := order_value a; default_ := default_ a; reverse_ := reverse_ a;
  limit := Some l; drop_unsorted := drop_unsorted a;
  wrap_unsorted := wrap_unsorted a; warn_exceptions := warn_exceptions a;
  warn_func := warn_func a; drop_exceptions := drop_exceptions a;
  raise_exceptions := raise_exceptions a |}.

Definition with_order_value (w : Where) (a : select_args) : select_args := {|
  where_ := where_ a; order_by := order_by a; order_key := order_key a;
  order_value := Some w; default_ := default_ a; reverse_ := reverse_ a;
  limit := limit a; drop_unsorted := drop_unsorted a;
  wrap_unsorted := wrap_unsorted a; warn_exceptions := warn_exceptions a;
  warn_func := warn_func a; drop_exceptions := drop_exceptions a;
  raise_exceptions := raise_exceptions a |}.

Definition with_default (d : value) (a : select_args) : select_args := {|
  where_ := where_ a; order_by := order_by a; order_key := order_key a;
  order_value := order_value a; default_ := d; reverse_ := reverse_ a;
  limit := limit a; drop_unsorted := drop_unsorted a;
  wrap_unsorted := wrap_unsorted a; warn_exceptions := warn_exceptions a;
  warn_func := warn_func a; drop_exceptions := drop_exceptions a;
  raise_exceptions := raise_exceptions a |}.

Definition with_drop_unsorted (b : bool) (a : select_args) : select_args := {|
  where_ := where_ a; order_by := order_by a; order_key := order_key a;
  order_value := order_value a; default_ := default_ a;
  reverse_ := reverse_ a; limit := limit a; drop_unsorted := b;
  wrap_unsorted := wrap_unsorted a; warn_exceptions := warn_exceptions a;
  warn_func := warn_func a; drop_exceptions := drop_exceptions a;
  raise_exceptions := raise_exceptions a |}.

Definition with_wrap_unsorted (b : bool) (a : select_args) : select_args := {|
  where_ := where_ a; order_by := order_by a; order_key := order_key a;
  order_value := order_value a; default_ := default_ a;
  reverse_ := reverse_ a; limit := limit a;
  drop_unsorted := drop_unsorted a; wrap_unsorted := b;
  warn_exceptions := warn_exceptions a; warn_func := warn_func a;
  drop_exceptions := drop_exceptions a;
  raise_exceptions := raise_exceptions a |}.

Definition with_drop_exceptions (b : bool) (a : select_args) : select_args := {|
  where_ := where_ a; order_by := order_by a; order_key := order_key a;
  order_value := order_value a; default_ := default_ a;
  reverse_ := reverse_ a; limit := limit a;
  drop_unsorted := drop_unsorted a; wrap_unsorted := wrap_unsorted a;
  warn_exceptions := warn_exceptions a; warn_func := warn_func a;
  drop_exceptions := b; raise_exceptions := raise_exceptions a |}.

Definition with_raise_exceptions (b : bool) (a : select_args) : select_args := {|
  where_ := where_ a; order_by := order_by a; order_key := order_key a;
  order_value := order_value a; default_ := default_ a;
  reverse_ := reverse_ a; limit := limit a;
  drop_unsorted := drop_unsorted a; wrap_unsorted := wrap_unsorted a;
  warn_exceptions := warn_exceptions a; warn_func := warn_func a;
  drop_exceptions := drop_exceptions a; raise_exceptions := b |}.


(** What the tests of the module look at: the classes of the items. *)
Definition class_names (m : M stream) : res (list pyclass) :=
  (fun s => class_of <$> items s) <$> m.2.

(** The predicate of test_basic_orders: [obj.x != 2]. *)
Definition filter_two (obj : value) : bool :=
  match obj with
  | VObj _ _ [("x", VInt 2)] _ => false
  | _ => true
  end.


(** ** Strict total orders given by a boolean test *)

Section StrictTotal.
Context {A : Type} (ltb : A -> A -> bool).
Hypothesis ltb_irrefl : forall a, ltb a a = false.
Hypothesis ltb_trans : forall a b c, ltb a b = true -> ltb b c = true -> ltb a c = true.
Hypothesis ltb_connex : forall a b, ltb a b = false -> ltb b a = false -> a = b.


Lemma ltb_le_lt a b c : ltb b a = false -> ltb b c = true -> ltb a c = true.
Proof.
  intros Hab Hbc. destruct (ltb a c) eqn:Hac; [done|].
  destruct (ltb c a) eqn:Hca.
  - by rewrite (ltb_trans b c a) in Hab.
  - rewrite (ltb_connex a c) in Hab by done. congruence.
Qed.


Lemma ltb_le_le a b c : ltb b a = false -> ltb c b = false -> ltb c a = false.
Proof.
  intros Hab Hbc. destruct (ltb c a) eqn:Hca; [|done].
  by rewrite (ltb_le_lt b c a) in Hab.
Qed.

End StrictTotal.

Lemma Zltb_trans a b c : (a <? b)%Z = true -> (b <? c)%Z = true -> (a <? c)%Z = true.
Proof. lia. Qed.

Lemma string_ltb_lt a b : String.ltb a b = true <-> String_as_OT.lt a b.
Proof.
  rewrite <- String_as_OT.cmp_lt. unfold String.ltb, String_as_OT.cmp.
  destruct (String.compare a b); intuition discriminate.
Qed.

Lemma string_ltb_irrefl a : String.ltb a a = false.
Proof.
  destruct (String.ltb a a) eqn:E; [|done].
  apply string_ltb_lt, String_as_OT.lt_not_eq in E. by destruct E.
Qed.

Lemma string_ltb_trans a b c :
  String.ltb a b = true -> String.ltb b c = true -> String.ltb a c = true.
Proof. rewrite !string_ltb_lt. apply String_as_OT.lt_trans. Qed.

Lemma string_ltb_connex a b :
  String.ltb a b = false -> String.ltb b a = false -> a = b.
Proof.
  unfold String.ltb. rewrite (String.compare_antisym a b).
  destruct (String.compare b a) eqn:E; simpl; try discriminate.
  intros _ _. symmetry. by apply String_as_OT.cmp_eq.
Qed.

(** ** The order [<] on values *)






Lemma py_lt_le_lt a b c :
  py_lt b a = Ok false -> py_lt b c = Ok true -> py_lt a c = Ok true.
Proof.
  destruct a, b, c; simpl; try discriminate; intros [= E1] [= E2]; f_equal;
    [ lia | eapply (ltb_le_lt String.ltb); eauto using string_ltb_irrefl, string_ltb_trans, string_ltb_connex | lia ].
Qed.


Lemma py_lt_le_le a b c :
  py_lt b a = Ok false -> py_lt c b = Ok false -> py_lt c a = Ok false.
Proof.
  destruct a, b, c; simpl; try discriminate; intros [= E1] [= E2]; f_equal;
    [ lia | eapply (ltb_le_le String.ltb); eauto using string_ltb_irrefl, string_ltb_trans, string_ltb_connex | lia ].
Qed.


(** ** The sort on decorated lists *)

Section Sorting.

Lemma insert_by_key_perm x acc acc' :
  insert_by_key x acc = Ok acc' -> acc' ≡ₚ x :: acc.
Proof.
  revert acc'. induction acc as [|y acc IH]; simpl; intros acc'.
  { by intros [= <-]. }
  destruct (py_lt x.1 y.1) as [[|]|]; simpl; try discriminate.
  { by intros [= <-]. }
  destruct (insert_by_key x acc) as [r|]; simpl; intros [= <-].
  rewrite (IH r eq_refl). apply perm_swap.
Qed.

Lemma sort_by_key_perm l acc out :
  sort_by_key l acc = Ok out -> out ≡ₚ acc ++ l.
Proof.
  revert acc. induction l as [|x l IH]; simpl; intros acc.
  { intros [= <-]. by rewrite app_nil_r. }
  destruct (insert_by_key x acc) as [acc'|] eqn:E; simpl; [|discriminate].
  intros Hs. rewrite (IH _ Hs), (insert_by_key_perm _ _ _ E).
  simpl. apply Permutation_middle.
Qed.





(** When the sort succeeds *)








End Sorting.

(** ** The built-in [sorted]: permutation, stability, reversal *)

Section Sorted.
Context (key : value -> res value).

Lemma decorate_Ok xs keyed :
  decorate key xs = Ok keyed ->
  keyed.*2 = xs /\ decorated key keyed /\ Ok <$> keyed.*1 = key <$> xs.
Proof.
  revert keyed. induction xs as [|x xs IH]; simpl; intros keyed.
  { intros [= <-]. repeat split. constructor. }
  destruct (key x) as [k|] eqn:Ek; simpl; [|discriminate].
  destruct (decorate key xs) as [r|]; simpl; intros [= <-].
  destruct (IH r eq_refl) as (IH1 & IH2 & IH3).
  rewrite !fmap_cons, IH1, IH3. repeat split. by constructor.
Qed.


Lemma sorted_Ok itr reverse_ out :
  sorted itr key reverse_ = Ok out ->
  fault itr = None /\
  exists keyed srt,
    decorate key (items itr) = Ok keyed /\
    sort_by_key (if reverse_ then rev keyed else keyed) [] = Ok srt /\
    out = (if reverse_ then rev srt else srt).*2.
Proof.
  unfold sorted, consume. destruct (fault itr); simpl; [discriminate|].
  destruct (decorate key (items itr)) as [keyed|]; simpl; [|discriminate].
  destruct (sort_by_key _ []) as [srt|] eqn:E; simpl; intros [= <-].
  split; [done|]. by exists keyed, srt.
Qed.

Lemma sorted_perm itr reverse_ out :
  sorted itr key reverse_ = Ok out -> out ≡ₚ items itr.
Proof.
  intros Hs. apply sorted_Ok in Hs as (_ & keyed & srt & Hk & Hsrt & ->).
  apply decorate_Ok in Hk as (<- & _ & _).
  apply sort_by_key_perm in Hsrt. simpl in Hsrt.
  destruct reverse_; [rewrite <- Permutation_rev, Hsrt, <- Permutation_rev|rewrite Hsrt];
    done.
Qed.



End Sorted.

(** ** Properties *)

Section Properties.
Context `{Interp}.

Lemma fmap_Some_inv {A B} (g : A -> B) (o : option A) (b : B) :
  g <$> o = Some b -> exists a, o = Some a /\ b = g a.
Proof. destruct o; simpl; intros [= <-]; eauto. Qed.




(** C7: the factory on an Err sample never raises: with a default it
    returns the constant function returning the default and emits
    nothing; without one it emits one low-priority diagnostic and returns
    the function that returns None for every input. *)
Theorem generate_order_by_func_error_sample
    cls msg key where_function default force_unsortable :
  exists f,
    _generate_order_by_func (VErr cls msg) key where_function default
      force_unsortable
    = (if is_none default then [Low (exception_diag (VErr cls msg))] else [],
       Ok (Some f))
    /\ forall o,
         apply_extractor f o = Ok (if is_none default then VNone else default).
Proof.
  exists (EConst default). unfold _generate_order_by_func. simpl.
  destruct default; simpl; auto.
Qed.


(** Records with the Shape Key of a mapping are mappings. *)
Lemma shape_key_same_access obj r :
  _determine_order_by_value_key r = _determine_order_by_value_key obj ->
  is_dict obj = true -> is_dict r = true.
Proof. destruct obj; try discriminate. by destruct r. Qed.


(** *** The monad of warnings and exceptions *)

Lemma M_bind_Ok {A B} (m : M A) (k : A -> M B) log b :
  mbind k m = (log, Ok b) ->
  exists l1 a l2, m = (l1, Ok a) /\ k a = (l2, Ok b) /\ log = l1 ++ l2.
Proof.
  destruct m as [l1 [a|e]]; unfold mbind, M_bind; [|discriminate].
  destruct (k a) as [l2 r] eqn:E. intros [= <- ->]. by exists l1, a, l2.
Qed.

Lemma M_bind_eq {A B} (m : M A) (k : A -> M B) l1 a :
  m = (l1, Ok a) -> mbind k m = (l1 ++ (k a).1, (k a).2).
Proof. intros ->. unfold mbind, M_bind. by destruct (k a). Qed.

Lemma lift_Ok {A} (r : res A) log a : lift r = (log, Ok a) -> r = Ok a /\ log = [].
Proof. unfold lift. by intros [= <- ->]. Qed.

(** *** Stages 1 to 3 *)

Lemma filter_filter {A} (f g : A -> bool) l :
  List.filter f (List.filter g l) = List.filter (fun x => g x && f x) l.
Proof.
  induction l as [|x l IH]; simpl; [done|].
  destruct (g x); simpl; [destruct (f x)|]; by rewrite IH.
Qed.

Lemma filter_true {A} (l : list A) : List.filter (fun _ => true) l = l.
Proof. induction l; simpl; congruence. Qed.

Lemma raise_exceptions_loop_items xs stop :
  items (err.raise_exceptions_loop xs stop) = until_error xs.
Proof.
  induction xs as [|o xs IH]; simpl; [done|].
  destruct (is_exception o); simpl; congruence.
Qed.

Lemma until_error_no_error xs :
  Forall (fun o => is_exception o = false) xs -> until_error xs = xs.
Proof. induction 1 as [|o xs Ho _ IH]; simpl; [done|]. by rewrite Ho, IH. Qed.

Lemma raise_exceptions_loop_no_error xs :
  Forall (fun o => is_exception o = false) xs ->
  err.raise_exceptions_loop xs None = Stream xs None.
Proof.
  induction 1 as [|o xs Ho _ IH]; simpl; [done|]. by rewrite Ho, IH.
Qed.

Lemma select_filtered_Iterable src a xs :
  iterand_of src = Iterable xs ->
  select_filtered src a = select_policies a (iter_list xs).
Proof.
  intros Hsrc. unfold select_filtered.
  assert (select_source src = ([], Ok (Iterable xs))) as ->.
  { by destruct src as [it|it]; simpl in *; subst. }
  unfold mbind, M_bind, mret, M_ret. simpl.
  by destruct (select_policies a (iter_list xs)).
Qed.

(** The policies and the filter never raise by themselves; what they let
    through is [surviving]. *)
Lemma select_policies_spec a xs :
  exists wlog,
    select_policies a (iter_list xs)
    = (wlog, Ok (Stream (surviving a xs)
                   (if raise_exceptions a
                    then fault (err.raise_exceptions_loop xs None)
                    else None))).
Proof.
  unfold select_policies, surviving, err.raise_exceptions, err.drop_exceptions,
    err.warn_exceptions, py_filter, iter_list.
  unfold mbind, M_bind, mret, M_ret. simpl.
  pose proof (raise_exceptions_loop_items xs None) as Hr.
  destruct (err.raise_exceptions_loop xs None) as [ri rf]. simpl in Hr. subst ri.
  destruct (raise_exceptions a), (drop_exceptions a), (warn_exceptions a),
    (where_ a) as [w|]; simpl; eexists;
    rewrite ?filter_filter, ?app_nil_r, ?filter_true;
    try reflexivity;
    (f_equal; f_equal; f_equal; apply filter_ext; intros;
     by rewrite ?andb_true_r).
Qed.

Lemma filter_sublist {A} (f : A -> bool) l : sublist (List.filter f l) l.
Proof.
  induction l as [|x l IH]; simpl; [done|].
  destruct (f x); by constructor.
Qed.

Lemma until_error_sublist xs : sublist (until_error xs) xs.
Proof.
  induction xs as [|o xs IH]; simpl; [done|].
  destruct (is_exception o); [apply sublist_nil_l|by constructor].
Qed.

Lemma surviving_sublist a xs : sublist (surviving a xs) xs.
Proof.
  unfold surviving. etransitivity; [apply filter_sublist|].
  destruct (raise_exceptions a); [apply until_error_sublist|done].
Qed.

(** *** The limit *)

Lemma select_limit_Ok a itr log out :
  select_limit a itr = (log, Ok out) ->
  log = [] /\ items out = truncate (limit a) (items itr)
  /\ (fault out = None \/ fault out = fault itr).
Proof.
  unfold select_limit, truncate. destruct (limit a) as [l|].
  - intros [Hl ->]%lift_Ok. split; [done|]. unfold islice in Hl.
    destruct (l <? 0)%Z; [discriminate|].
    destruct (Z.to_nat l <=? length (items itr))%nat eqn:E.
    + injection Hl as <-. simpl. auto.
    + injection Hl as <-. apply Nat.leb_gt in E.
      rewrite take_ge by lia. auto.
  - intros [= <- <-]. auto.
Qed.

Lemma elem_of_truncate l xs (o : value) : o ∈ truncate l xs -> o ∈ xs.
Proof.
  unfold truncate. destruct l; [|done].
  intros (i & Ho & _)%elem_of_take. by eapply list_elem_of_lookup_2.
Qed.

Lemma select_Iterable src xs a :
  iterand_of src = Iterable xs ->
  exists wlog pre,
    select_filtered src a = (wlog, Ok pre)
    /\ items pre = surviving a xs
    /\ fault pre = (if raise_exceptions a
                    then fault (err.raise_exceptions_loop xs None)
                    else None)
    /\ select src a
       = (wlog ++ (if ordering_requested a then select_ordered a pre
                   else select_unordered a pre).1,
          (if ordering_requested a then select_ordered a pre
           else select_unordered a pre).2).
Proof.
  intros Hsrc. destruct (select_policies_spec a xs) as [wlog Hp].
  rewrite <- (select_filtered_Iterable src a xs Hsrc) in Hp.
  eexists wlog, _. split; [exact Hp|]. split; [done|]. split; [done|].
  unfold select. by rewrite (M_bind_eq _ _ _ _ Hp).
Qed.

Lemma select_unordered_Ok a itr log out :
  select_unordered a itr = (log, Ok out) ->
  log = []
  /\ items out = truncate (limit a) (if reverse_ a then rev (items itr) else items itr)
  /\ (reverse_ a = true -> fault itr = None /\ fault out = None)
  /\ (fault out = None \/ fault out = fault itr).
Proof.
  unfold select_unordered. intros (l1 & itr' & l2 & Hrev & Hlim & ->)%M_bind_Ok.
  apply select_limit_Ok in Hlim as (-> & Hitems & Hfault).
  destruct (reverse_ a).
  - apply lift_Ok in Hrev as [Hrev ->]. unfold always_reversible, consume in Hrev.
    destruct (fault itr); [discriminate|]. injection Hrev as <-.
    simpl in *. repeat split; auto. by destruct Hfault.
  - injection Hrev as <- <-. repeat split; auto; discriminate.
Qed.

(** C10: without an ordering argument the output is the items that
    survive the error policies and the filter, in input order or, with
    reverse, in the opposite order, truncated to the limit; every output
    item, a marker in particular, is an item of the input; unless
    [raise_exceptions] is set the output ends without an exception. *)
Theorem select_without_ordering src xs a log out :
  iterand_of src = Iterable xs ->
  order_by a = None -> order_key a = None -> order_value a = None ->
  select src a = (log, Ok out) ->
  items out
  = truncate (limit a)
      (if reverse_ a then rev (surviving a xs) else surviving a xs)
  /\ Forall (fun o => o ∈ xs) (items out)
  /\ (raise_exceptions a = false -> fault out = None).
Proof.
  intros Hsrc Hby Hkey Hval Hsel.
  destruct (select_Iterable src xs a Hsrc) as (wlog & pre & _ & Hpre & Hfpre & Heq).
  rewrite Heq in Hsel. unfold ordering_requested in Hsel.
  rewrite Hby, Hkey, Hval in Hsel.
  destruct (select_unordered a pre) as [l r] eqn:E. simpl in Hsel.
  injection Hsel as <- ->.
  apply select_unordered_Ok in E as (_ & Hitems & _ & Hfault).
  rewrite Hpre in Hitems.
  split; [done|]. split.
  - rewrite Hitems. apply Forall_forall. intros o Ho.
    assert (o ∈ surviving a xs) as Ho'.
    { apply elem_of_truncate in Ho. destruct (reverse_ a); [|done].
      by apply list_elem_of_In, in_rev, list_elem_of_In. }
    eapply elem_of_sublist; [exact Ho'|]. apply surviving_sublist.
  - intros Hr. rewrite Hr in Hfpre. destruct Hfault; congruence.
Qed.


(** C5 (amended): when [order_key] is the ordering argument in effect,
    no default is supplied, and the first item of the filtered stream is
    a record (neither an Err nor None) on which the key is found neither
    as a mapping key nor as an attribute, [select] raises a
    QueryException whose message names the key. *)
Theorem order_key_not_found src a k log pre first rest :
  order_by a = None -> order_key a = Some k ->
  is_none (default_ a) = true ->
  select_filtered src a = (log, Ok pre) ->
  items pre = first :: rest ->
  is_exception first = false -> is_none first = false ->
  key_found first k = false ->
  select src a
  = (log, Raise (QueryException
                   [ Lit "Error while ordering: could not find "; Lit k;
                     Lit " on "; StrOf first ])).
Proof.
  intros Hby Hkey Hd Hpre Hitems Hexc Hnone Hfound.
  unfold select. rewrite (M_bind_eq _ _ _ _ Hpre).
  unfold ordering_requested, select_ordered, _handle_generate_order_by.
  rewrite Hby, Hkey. unfold _peek_iter. rewrite Hitems.
  unfold lift, mbind, M_bind. rewrite Hnone.
  unfold _generate_order_by_func. rewrite Hexc, Hd.
  unfold key_found in Hfound.
  destruct (is_dict first); rewrite Hfound; simpl; by rewrite app_nil_r.
Qed.

(** *** The partition *)

Lemma _wrap_unsorted_loop_Ok f xs u s u' s' :
  _wrap_unsorted_loop xs f u s = Ok (u', s') ->
  u' = u ++ unsorted_part f xs /\ s' = s ++ sorted_part f xs.
Proof.
  revert u s. induction xs as [|o xs IH]; intros u s; simpl.
  { intros [= <- <-]. by rewrite !app_nil_r. }
  unfold unsorted_part, sorted_part, unplaced, key_is_none in *. simpl.
  destruct (is_unsortable o) eqn:Hu; simpl.
  { intros [-> ->]%IH. by rewrite Hu, <- app_assoc. }
  destruct (apply_orderfunc f o) as [v|]; simpl; [|discriminate].
  destruct (is_none v); simpl; intros [-> ->]%IH;
    by rewrite ?Hu, <- ?app_assoc.
Qed.

Lemma _wrap_unsorted_Ok itr f U S :
  _wrap_unsorted itr f = Ok (U, S) ->
  fault itr = None
  /\ U = iter_list (unsorted_part f (items itr))
  /\ S = iter_list (sorted_part f (items itr)).
Proof.
  unfold _wrap_unsorted.
  destruct (_wrap_unsorted_loop (items itr) f [] []) as [[u s]|] eqn:E; simpl;
    [|discriminate].
  apply _wrap_unsorted_loop_Ok in E as [-> ->].
  destruct (fault itr); [discriminate|]. by intros [= <- <-].
Qed.

Lemma _drop_unsorted_loop_Ok f xs stop :
  fault (_drop_unsorted_loop xs stop f) = None ->
  stop = None /\ items (_drop_unsorted_loop xs stop f) = sorted_part f xs.
Proof.
  unfold sorted_part, unplaced, key_is_none.
  induction xs as [|o xs IH]; simpl; [done|].
  destruct (is_unsortable o); simpl; [done|].
  destruct (apply_orderfunc f o) as [v|]; simpl; [|discriminate].
  destruct (is_none v); simpl; [done|].
  intros [-> ->]%IH. done.
Qed.

(** What reaches the sort and what is set aside, in the three modes. *)
Lemma _handle_unsorted_sorted itr f d w U S key r srt :
  _handle_unsorted itr f d w = Ok (U, S) ->
  sorted S key r = Ok srt ->
  fault itr = None /\ fault U = None /\ fault S = None
  /\ items U = (if d then [] else if w then unsorted_part f (items itr) else [])
  /\ items S = (if d || w then sorted_part f (items itr) else items itr).
Proof.
  unfold _handle_unsorted. intros Hh (HS & _)%sorted_Ok.
  destruct d; [|destruct w].
  - injection Hh as <- <-. unfold _drop_unsorted in *.
    pose proof (_drop_unsorted_loop_Ok _ _ _ HS) as [Hstop Hitems].
    by rewrite HS, Hitems.
  - apply _wrap_unsorted_Ok in Hh as (-> & -> & ->). done.
  - injection Hh as <- <-. done.
Qed.

Lemma _handle_generate_order_by_stream itr by_ key_ val_ default log chosen itr' :
  _handle_generate_order_by itr by_ key_ val_ default = (log, Ok (chosen, itr')) ->
  itr' = itr.
Proof.
  unfold _handle_generate_order_by.
  destruct by_ as [g|]; [by intros [= _ _ <-]|].
  destruct key_ as [k|].
  - intros (l1 & [first itr0] & l2 & Hpeek & Hrest & _)%M_bind_Ok.
    apply lift_Ok in Hpeek as [Hpeek _].
    assert (itr0 = itr) as ->.
    { unfold _peek_iter in Hpeek. destruct (items itr); [destruct (fault itr)|];
        congruence. }
    destruct (is_none first); [by injection Hrest as _ _ <-|].
    apply M_bind_Ok in Hrest as (? & [e|] & ? & _ & Hrest & _);
      [by injection Hrest as _ _ <-|discriminate].
  - destruct val_ as [w|]; [|discriminate].
    intros (? & ? & ? & _ & Hrest & _)%M_bind_Ok. by injection Hrest as _ _ <-.
Qed.

Lemma select_ordered_Ok a itr log out :
  select_ordered a itr = (log, Ok out) ->
  exists chosen,
    _handle_generate_order_by itr (order_by a) (order_key a) (order_value a)
      (default_ a) = (log, Ok (chosen, itr))
    /\ match chosen with
       | None => out = itr
       | Some f =>
           exists U S srt,
             _handle_unsorted itr f (drop_unsorted a) (wrap_unsorted a) = Ok (U, S)
             /\ sorted S (apply_orderfunc f) (reverse_ a) = Ok srt
             /\ select_limit a
                  (if reverse_ a then chain (iter_list srt) U
                   else chain U (iter_list srt)) = ([], Ok out)
       end.
Proof.
  unfold select_ordered.
  intros (l1 & [chosen itr'] & l2 & Hh & Hrest & ->)%M_bind_Ok.
  pose proof (_handle_generate_order_by_stream _ _ _ _ _ _ _ _ Hh) as ->.
  exists chosen. destruct chosen as [f|].
  - apply M_bind_Ok in Hrest as (? & [U S] & ? & [HU ->]%lift_Ok & Hrest & ->).
    apply M_bind_Ok in Hrest as (? & srt & ? & [Hs ->]%lift_Ok & Hrest & ->).
    pose proof (select_limit_Ok _ _ _ _ Hrest) as (-> & _).
    simpl. rewrite app_nil_r. split; [done|]. by exists U, S, srt.
  - injection Hrest as <- <-. by rewrite app_nil_r.
Qed.

Lemma stream_eta s : s = Stream (items s) (fault s).
Proof. by destruct s. Qed.

(** The output of the ordering branch once an order function is chosen. *)
Lemma select_ordered_sorted a itr log out log' f itr' :
  select_ordered a itr = (log, Ok out) ->
  _handle_generate_order_by itr (order_by a) (order_key a) (order_value a)
    (default_ a) = (log', Ok (Some f, itr')) ->
  exists srt,
    fault itr = None /\ fault out = None
    /\ sorted (iter_list (to_sort a f (items itr))) (apply_orderfunc f)
         (reverse_ a) = Ok srt
    /\ items out
       = truncate (limit a)
           (if reverse_ a then srt ++ set_aside a f (items itr)
            else set_aside a f (items itr) ++ srt).
Proof.
  intros (chosen & Hh & Hout)%select_ordered_Ok Hh'.
  rewrite Hh in Hh'. injection Hh' as _ -> _.
  destruct Hout as (U & S & srt & HU & Hs & Hlim).
  destruct (_handle_unsorted_sorted _ _ _ _ _ _ _ _ _ HU Hs)
    as (Hf & HfU & HfS & HiU & HiS).
  exists srt. split; [done|].
  apply select_limit_Ok in Hlim as (_ & Hitems & Hfault).
  assert (iter_list (to_sort a f (items itr)) = S) as ->.
  { unfold to_sort, iter_list. rewrite <- HiS, <- HfS. symmetry. apply stream_eta. }
  unfold set_aside. rewrite <- HiU.
  split; [|split; [done|]].
  - destruct Hfault as [Hfault|Hfault]; [done|]. rewrite Hfault.
    unfold chain. destruct (reverse_ a); simpl; [done|by rewrite HfU].
  - rewrite Hitems. f_equal. unfold chain.
    destruct (reverse_ a); simpl; [done|by rewrite HfU].
Qed.

Lemma filter_complement_perm {A} (f : A -> bool) l :
  List.filter f l ++ List.filter (fun x => negb (f x)) l ≡ₚ l.
Proof.
  induction l as [|x l IH]; simpl; [done|].
  destruct (f x); simpl; [by rewrite IH|].
  by rewrite <- Permutation_middle, IH.
Qed.

Lemma Forall2_wrapped_refl l : Forall2 wrapped_as l l.
Proof. induction l; constructor; auto. by left. Qed.

Lemma unsorted_part_wrapped f xs :
  Forall2 wrapped_as (List.filter (unplaced f) xs) (unsorted_part f xs).
Proof.
  unfold unsorted_part. induction (List.filter (unplaced f) xs) as [|o l IH];
    simpl; constructor; [|done].
  unfold wrapped_as. destruct (is_unsortable o) eqn:E; auto.
Qed.

(** Every item that reaches the ordering stage is accounted for once in
    the output when nothing is dropped and no limit applies. *)
Lemma set_aside_to_sort_wrapped a f xs srt :
  drop_unsorted a = false -> srt ≡ₚ to_sort a f xs ->
  exists l, l ≡ₚ xs
    /\ Forall2 wrapped_as l
         (if reverse_ a then srt ++ set_aside a f xs else set_aside a f xs ++ srt).
Proof.
  unfold set_aside, to_sort. intros -> Hsrt. simpl in *.
  destruct (wrap_unsorted a).
  - exists (if reverse_ a then srt ++ List.filter (unplaced f) xs
            else List.filter (unplaced f) xs ++ srt).
    split.
    + rewrite <- (filter_complement_perm (unplaced f) xs) at 3.
      destruct (reverse_ a); rewrite Hsrt; unfold sorted_part;
        [apply Permutation_app_comm|done].
    + destruct (reverse_ a); apply Forall2_app;
        auto using Forall2_wrapped_refl, unsorted_part_wrapped.
  - exists srt. split; [done|].
    destruct (reverse_ a); rewrite ?app_nil_r; apply Forall2_wrapped_refl.
Qed.

(** C1 (amended): when nothing is dropped or filtered out (no
    [drop_exceptions], no [drop_unsorted], no [where], no [limit], and no
    Err for [raise_exceptions] to raise) and [select] returns, the output
    ends without an exception, it has as many items as the input, and it
    is a rearrangement of the input in which some items are wrapped in a
    marker. *)
Theorem total_accounting src xs a log out :
  iterand_of src = Iterable xs ->
  drop_exceptions a = false -> drop_unsorted a = false ->
  where_ a = None -> limit a = None ->
  (raise_exceptions a = true -> Forall (fun o => is_exception o = false) xs) ->
  select src a = (log, Ok out) ->
  fault out = None
  /\ length (items out) = length xs
  /\ exists l, l ≡ₚ xs /\ Forall2 wrapped_as l (items out).
Proof.
  intros Hsrc Hde Hdu Hw Hlim Hraise Hsel.
  assert (fault out = None
          /\ exists l, l ≡ₚ xs /\ Forall2 wrapped_as l (items out))
    as (Hfault & l & Hl & Hlo).
  2:{ split; [done|]. split; [|by exists l].
      by rewrite <- (Forall2_length _ _ _ Hlo), (Permutation_length Hl). }
  destruct (select_Iterable src xs a Hsrc) as (wlog & pre & Hfil & Hpre & Hfpre & Heq).
  assert (surviving a xs = xs) as Hsurv.
  { unfold surviving. rewrite Hde, Hw. simpl. rewrite filter_true.
    destruct (raise_exceptions a); [|done]. by apply until_error_no_error, Hraise. }
  assert (fault pre = None) as Hfnone.
  { rewrite Hfpre. destruct (raise_exceptions a); [|done].
    by rewrite raise_exceptions_loop_no_error by by apply Hraise. }
  rewrite Hsurv in Hpre. rewrite Heq in Hsel.
  destruct (ordering_requested a).
  - destruct (select_ordered a pre) as [l1 r] eqn:E. simpl in Hsel.
    injection Hsel as <- ->.
    destruct (select_ordered_Ok _ _ _ _ E) as ([f|] & Hh & Hout).
    + destruct (select_ordered_sorted _ _ _ _ _ _ _ E Hh)
        as (srt & _ & Hfout & Hs & Hitems).
      split; [done|]. rewrite Hitems, Hlim, Hpre. simpl.
      apply set_aside_to_sort_wrapped; [done|].
      apply sorted_perm in Hs. by rewrite Hpre in Hs.
    + subst out. split; [done|]. rewrite Hpre. exists xs.
      auto using Forall2_wrapped_refl.
  - destruct (select_unordered a pre) as [l1 r] eqn:E. simpl in Hsel.
    injection Hsel as <- ->.
    apply select_unordered_Ok in E as (_ & Hitems & _ & Hfault).
    split; [destruct Hfault; congruence|].
    rewrite Hitems, Hlim, Hpre. simpl.
    exists (if reverse_ a then rev xs else xs). split.
    + destruct (reverse_ a); [symmetry; apply Permutation_rev|done].
    + apply Forall2_wrapped_refl.
Qed.

(** *** Where output items come from *)

Lemma elem_of_List_filter {A} (f : A -> bool) l x :
  x ∈ List.filter f l <-> x ∈ l /\ f x = true.
Proof. rewrite !list_elem_of_In. apply filter_In. Qed.

Lemma elem_of_to_sort a f xs o : o ∈ to_sort a f xs -> o ∈ xs.
Proof.
  unfold to_sort, sorted_part. destruct (_ || _); [|done].
  by intros [? _]%elem_of_List_filter.
Qed.

Lemma elem_of_set_aside a f xs o :
  o ∈ set_aside a f xs ->
  is_unsortable o = true /\ exists i, i ∈ xs /\ wrapped_as i o.
Proof.
  unfold set_aside, unsorted_part.
  destruct (drop_unsorted a); [by intros ?%elem_of_nil|].
  destruct (wrap_unsorted a); [|by intros ?%elem_of_nil].
  intros (i & -> & [Hi _]%elem_of_List_filter)%list_elem_of_fmap.
  unfold wrapped_as. destruct (is_unsortable i) eqn:E; eauto 6.
Qed.

Lemma select_provenance src xs a log out :
  iterand_of src = Iterable xs ->
  select src a = (log, Ok out) ->
  Forall (fun o => exists i, i ∈ xs /\ wrapped_as i o) (items out).
Proof.
  intros Hsrc Hsel.
  destruct (select_Iterable src xs a Hsrc) as (wlog & pre & Hfil & Hpre & Hfpre & Heq).
  pose proof (surviving_sublist a xs) as Hsub. rewrite <- Hpre in Hsub.
  assert (forall o, o ∈ items pre -> exists i, i ∈ xs /\ wrapped_as i o) as Hin.
  { intros o Ho. exists o. split; [by eapply elem_of_sublist|by left]. }
  rewrite Heq in Hsel. apply Forall_forall. intros o Ho.
  destruct (ordering_requested a).
  - destruct (select_ordered a pre) as [l1 r] eqn:E. simpl in Hsel.
    injection Hsel as <- ->.
    destruct (select_ordered_Ok _ _ _ _ E) as ([f|] & Hh & Hout).
    + destruct (select_ordered_sorted _ _ _ _ _ _ _ E Hh) as (srt & _ & _ & Hs & Hitems).
      apply sorted_perm in Hs. simpl in Hs.
      rewrite Hitems in Ho. apply elem_of_truncate in Ho.
      assert (o ∈ srt \/ o ∈ set_aside a f (items pre)) as [Ho'|Ho'].
      { destruct (reverse_ a); apply elem_of_app in Ho; tauto. }
      * rewrite Hs in Ho'. by apply Hin, (elem_of_to_sort a f).
      * apply elem_of_set_aside in Ho' as (_ & i & Hi & Hw).
        exists i. split; [by eapply elem_of_sublist|done].
    + subst out. by apply Hin.
  - destruct (select_unordered a pre) as [l1 r] eqn:E. simpl in Hsel.
    injection Hsel as <- ->.
    apply select_unordered_Ok in E as (_ & Hitems & _).
    rewrite Hitems in Ho. apply elem_of_truncate in Ho. apply Hin.
    destruct (reverse_ a); [|done]. by apply list_elem_of_In, in_rev, list_elem_of_In.
Qed.

Lemma select_well_wrapped src xs a log out :
  iterand_of src = Iterable xs ->
  Forall (fun o => well_wrapped o = true) xs ->
  select src a = (log, Ok out) ->
  Forall (fun o => well_wrapped o = true) (items out).
Proof.
  intros Hsrc Hwf Hsel.
  pose proof (select_provenance src xs a log out Hsrc Hsel) as Hprov.
  eapply Forall_impl; [exact Hprov|]. simpl.
  intros o (i & Hi & [->|[-> Hu]]).
  - rewrite Forall_forall in Hwf. by apply Hwf.
  - by destruct i.
Qed.

(** C3 (amended): on an input in which no marker wraps a marker, as any
    input without markers is, no marker of the output wraps a marker, and
    the same holds when [select] is run again over that output, with any
    arguments; the wrap-mode partition hands the markers it receives on
    as they are. *)
Theorem no_double_wrapping src xs a log out :
  iterand_of src = Iterable xs ->
  Forall (fun o => well_wrapped o = true) xs ->
  select src a = (log, Ok out) ->
  Forall (fun o => well_wrapped o = true) (items out)
  /\ (forall a' log' out',
        select (Given (Iterable (items out))) a' = (log', Ok out') ->
        Forall (fun o => well_wrapped o = true) (items out'))
  /\ (forall itr f U S o,
        _wrap_unsorted itr f = Ok (U, S) ->
        o ∈ items itr -> is_unsortable o = true -> o ∈ items U).
Proof.
  intros Hsrc Hwf Hsel.
  pose proof (select_well_wrapped src xs a log out Hsrc Hwf Hsel) as Hout.
  split; [done|]. split.
  - intros a' log' out' Hsel'.
    by apply (select_well_wrapped (Given (Iterable (items out))) (items out)
                a' log' out').
  - intros itr f U S o HU Ho Hu.
    apply _wrap_unsorted_Ok in HU as (_ & -> & _). simpl.
    unfold unsorted_part. apply list_elem_of_fmap. exists o. rewrite Hu.
    split; [done|]. apply elem_of_List_filter. split; [done|].
    unfold unplaced. by rewrite Hu.
Qed.

(** *** Stability *)





Lemma handle_ordering_requested itr a log r :
  _handle_generate_order_by itr (order_by a) (order_key a) (order_value a)
    (default_ a) = (log, Ok r) ->
  ordering_requested a = true.
Proof.
  unfold ordering_requested, _handle_generate_order_by.
  by destruct (order_by a), (order_key a), (order_value a).
Qed.


(** *** Reversal *)




End Properties.

(** ** Further properties of the code *)

Section Further.
Context `{Interp}.

(** *** The attribute locator and the factory *)

Lemma assoc_app k l1 l2 :
  assoc k (l1 ++ l2)
  = match assoc k l1 with Some v => Some v | None => assoc k l2 end.
Proof.
  induction l1 as [|[k' v] l1 IH]; simpl; [done|].
  by destruct (String.eqb k' k).
Qed.

Lemma assoc_Some_fst k l v : assoc k l = Some v -> k ∈ l.*1.
Proof.
  induction l as [|[k' v'] l IH]; simpl; [done|].
  destruct (String.eqb k' k) eqn:E.
  - apply String.eqb_eq in E as ->. intros _. apply list_elem_of_here.
  - intros Hl. apply list_elem_of_further. by apply IH.
Qed.

Lemma first_match_assoc w l k :
  NoDup l.*1 -> first_match w l = Some k ->
  exists v, assoc k l = Some v /\ w v = true.
Proof.
  induction l as [|[k' v'] l IH]; simpl; [done|].
  intros [Hk' Hnd]%NoDup_cons. destruct (w v') eqn:Hw.
  - intros [= <-]. rewrite String.eqb_refl. eauto.
  - intros Hm. destruct (IH Hnd Hm) as (v & Hv & Hwv).
    destruct (String.eqb k' k) eqn:E; [|eauto].
    apply String.eqb_eq in E as ->. destruct Hk'. by eapply assoc_Some_fst.
Qed.

Lemma first_match_In w l k :
  first_match w l = Some k -> exists v, (k, v) ∈ l /\ w v = true.
Proof.
  induction l as [|[k' v'] l IH]; simpl; [done|].
  destruct (w v') eqn:Hw.
  - intros [= <-]. exists v'. split; [apply list_elem_of_here|done].
  - intros (v & Hv & Hwv)%IH. exists v. split; [by apply list_elem_of_further|done].
Qed.

Lemma first_match_None w l :
  first_match w l = None <-> Forall (fun kv => w kv.2 = false) l.
Proof.
  induction l as [|[k' v'] l IH]; simpl; [by split; [constructor|]|].
  destruct (w v') eqn:Hw.
  - split; [done|]. intros [Hv _]%Forall_cons. simpl in Hv. congruence.
  - rewrite IH. split; [by constructor|by intros [_ ?]%Forall_cons].
Qed.

Lemma getmembers_getattr o k v :
  (k, v) ∈ getmembers o -> py_getattr o k = Some v.
Proof.
  unfold getmembers. intros (n & Hn & Hv)%list_elem_of_omap.
  destruct (py_getattr o n) as [v'|] eqn:E; simpl in Hv; [|done].
  by injection Hv as <- <-.
Qed.

Lemma getmembers_match w o k default :
  first_match w (getmembers o) = Some k ->
  exists v, apply_extractor (EGetattr k default) o = Ok v /\ w v = true.
Proof.
  intros (v & Hv & Hw)%first_match_In. exists v. split; [|done].
  simpl. unfold getattr_default. by rewrite (getmembers_getattr o k v Hv).
Qed.

Lemma fields_match w o k default :
  NoDup (declared_fields o).*1 ->
  own_attrs o = declared_fields o ++ drop (length (declared_fields o)) (own_attrs o) ->
  first_match w (declared_fields o) = Some k ->
  exists v, apply_extractor (EGetattr k default) o = Ok v /\ w v = true.
Proof.
  intros Hnd Hown (v & Hv & Hw)%first_match_assoc; [|done].
  exists v. split; [|done]. simpl. unfold getattr_default, py_getattr, all_attrs.
  by rewrite Hown, !assoc_app, Hv.
Qed.

(** X1: the function [attribute_func] returns, called with the object it
    was built from, returns a value that the [where] predicate matched
    (the keys of a dict and the field names of a record being distinct,
    as they are in Python). *)
Theorem attribute_func_returns_match obj where_function default f :
  NoDup (record_names obj) ->
  attribute_func obj where_function default = Some f ->
  exists v, apply_extractor f obj = Ok v /\ where_function v = true.
Proof.
  intros Hnd Hf. unfold attribute_func in Hf.
  destruct obj as [| | | | | |entries|k cls fields others|o];
    simpl in Hf, Hnd;
    try (apply fmap_Some_inv in Hf as (n & Hn & ->);
         by apply getmembers_match).
  - destruct (first_match where_function entries) as [n|] eqn:E; simpl in Hf.
    + injection Hf as <-.
      destruct (first_match_assoc _ _ _ Hnd E) as (v & Hv & Hw).
      exists v. split; [|done]. simpl. by rewrite Hv.
    + apply fmap_Some_inv in Hf as (n & Hn & ->). by apply getmembers_match.
  - assert (forall n, first_match where_function fields = Some n ->
              exists v, apply_extractor (EGetattr n default)
                          (VObj k cls fields others) = Ok v
                        /\ where_function v = true) as Hfields.
    { intros n Hn. apply fields_match; [done| |done]. simpl.
      by rewrite drop_app_length. }
    destruct k; simpl in Hf;
      try (destruct (first_match where_function fields) as [n|] eqn:E;
           simpl in Hf; [injection Hf as <-; by apply Hfields|]);
      apply fmap_Some_inv in Hf as (n & Hn & ->); by apply getmembers_match.
  - destruct (where_function o) eqn:E; simpl in Hf.
    + injection Hf as <-. exists o. split; [|done]. by simpl.
    + apply fmap_Some_inv in Hf as (n & Hn & ->). by apply getmembers_match.
Qed.

(** X2: [attribute_func] returns None exactly when the predicate matches
    no value it scans: no entry of a dict, no declared field of a
    dataclass or NamedTuple, and no member listed by
    [inspect.getmembers]. *)
Theorem attribute_func_None_iff obj where_function default :
  attribute_func obj where_function default = None
  <-> Forall (fun kv => where_function kv.2 = false) (scanned obj).
Proof.
  unfold attribute_func, scanned. rewrite Forall_app, <- !first_match_None.
  destruct obj as [| | | | | |entries|k cls fields others|o]; simpl;
    try destruct k; simpl;
    repeat match goal with
    | |- context [first_match ?w ?l] =>
        lazymatch l with
        | [] => fail
        | _ => destruct (first_match w l); simpl
        end
    | |- context [if ?b then _ else _] => destruct b; simpl
    end; intuition congruence.
Qed.


(** *** The partition *)

Lemma _wrap_unsorted_loop_keyed f xs u s r :
  _wrap_unsorted_loop xs f u s = Ok r -> Forall (keyed f) xs.
Proof.
  revert u s. induction xs as [|o xs IH]; intros u s; simpl; [by constructor|].
  destruct (is_unsortable o) eqn:Hu.
  { intros Hr. constructor; [by left|by eapply IH]. }
  destruct (apply_orderfunc f o) as [v|] eqn:Hv; simpl; [|discriminate].
  destruct (is_none v); intros Hr;
    (constructor; [right; eauto|by eapply IH]).
Qed.

Lemma sorted_part_placed f xs :
  Forall (keyed f) xs -> Forall (placed f) (sorted_part f xs).
Proof.
  unfold sorted_part, unplaced, key_is_none.
  induction 1 as [|o xs Ho _ IH]; simpl; [constructor|].
  destruct (is_unsortable o) eqn:Hu; simpl; [done|].
  destruct Ho as [?|[v Hv]]; [congruence|]. rewrite Hv.
  destruct (is_none v) eqn:Hn; simpl; [done|].
  constructor; [|done]. split; [done|]. eauto.
Qed.

Lemma unsorted_part_markers f xs :
  Forall (fun o => is_unsortable o = true) (unsorted_part f xs).
Proof.
  unfold unsorted_part. apply Forall_fmap, Forall_forall. intros o _. simpl.
  by destruct (is_unsortable o) eqn:E.
Qed.

Lemma partition_length f xs :
  length (unsorted_part f xs) + length (sorted_part f xs) = length xs.
Proof.
  unfold unsorted_part, sorted_part. rewrite length_fmap.
  induction xs as [|o xs IH]; simpl; [done|].
  destruct (unplaced f o); simpl; lia.
Qed.

Lemma partition_facts itr f U S :
  _wrap_unsorted itr f = Ok (U, S) ->
  fault U = None /\ fault S = None
  /\ Forall (fun o => is_unsortable o = true) (items U)
  /\ Forall (placed f) (items S).
Proof.
  intros HU.
  assert (Forall (keyed f) (items itr)) as Hk.
  { unfold _wrap_unsorted in HU.
    destruct (_wrap_unsorted_loop (items itr) f [] []) as [r|] eqn:E;
      [|discriminate].
    by eapply _wrap_unsorted_loop_keyed. }
  apply _wrap_unsorted_Ok in HU as (_ & -> & ->). simpl.
  repeat split; auto using unsorted_part_markers, sorted_part_placed.
Qed.

(** X4: the wrap-mode partition loses nothing and keeps the order: the
    two lists together are as long as the input, the first holds markers
    only, the second is a subsequence of the input whose items all have
    an order value other than None. *)
Theorem wrap_unsorted_partition itr f U S :
  _wrap_unsorted itr f = Ok (U, S) ->
  fault U = None /\ fault S = None
  /\ length (items U) + length (items S) = length (items itr)
  /\ Forall (fun o => is_unsortable o = true) (items U)
  /\ Forall (placed f) (items S)
  /\ sublist (items S) (items itr).
Proof.
  intros HU.
  assert (Forall (keyed f) (items itr)) as Hk.
  { unfold _wrap_unsorted in HU.
    destruct (_wrap_unsorted_loop (items itr) f [] []) as [r|] eqn:E;
      [|discriminate].
    by eapply _wrap_unsorted_loop_keyed. }
  apply _wrap_unsorted_Ok in HU as (_ & -> & ->). simpl.
  repeat split; auto using partition_length, unsorted_part_markers,
    sorted_part_placed.
  apply filter_sublist.
Qed.

Lemma _drop_unsorted_loop_keyed f xs :
  Forall (keyed f) xs ->
  _drop_unsorted_loop xs None f = Stream (sorted_part f xs) None.
Proof.
  unfold sorted_part, unplaced, key_is_none.
  induction 1 as [|o xs Ho _ IH]; simpl; [done|].
  destruct (is_unsortable o) eqn:Hu; simpl; [done|].
  destruct Ho as [?|[v Hv]]; [congruence|]. rewrite Hv.
  destruct (is_none v); simpl; [done|]. by rewrite IH.
Qed.

(** X5: the two partition modes agree on what is sortable: the sortable
    list of the wrap mode is the stream the drop mode yields. *)
Theorem wrap_drop_agree itr f U S :
  _wrap_unsorted itr f = Ok (U, S) -> _drop_unsorted itr f = S.
Proof.
  intros HU.
  assert (Forall (keyed f) (items itr)) as Hk.
  { unfold _wrap_unsorted in HU.
    destruct (_wrap_unsorted_loop (items itr) f [] []) as [r|] eqn:E;
      [|discriminate].
    by eapply _wrap_unsorted_loop_keyed. }
  apply _wrap_unsorted_Ok in HU as (Hf & _ & ->).
  unfold _drop_unsorted. rewrite Hf. by apply _drop_unsorted_loop_keyed.
Qed.

(** X6: the drop mode yields a subsequence of its input that holds no
    marker and no item whose order value is None, and dropping again
    with the same order function changes nothing. *)
Theorem drop_unsorted_idempotent itr f :
  sublist (items (_drop_unsorted itr f)) (items itr)
  /\ Forall (placed f) (items (_drop_unsorted itr f))
  /\ _drop_unsorted (_drop_unsorted itr f) f = _drop_unsorted itr f.
Proof.
  unfold _drop_unsorted. generalize (fault itr) as stop.
  induction (items itr) as [|o xs IH]; intros stop; simpl.
  { repeat split; constructor. }
  destruct (IH stop) as (IH1 & IH2 & IH3).
  destruct (is_unsortable o) eqn:Hu.
  { split; [by constructor|done]. }
  destruct (apply_orderfunc f o) as [v|] eqn:Hv; simpl.
  2:{ repeat split; [apply sublist_nil_l|constructor]. }
  destruct (is_none v) eqn:Hn.
  { split; [by constructor|done]. }
  simpl. rewrite Hu, Hv, Hn. split; [by constructor|]. split.
  - constructor; [|done]. split; [done|]. eauto.
  - unfold yield_first. simpl. by rewrite IH3.
Qed.

Lemma _wrap_unsorted_loop_sorted f ss u s :
  Forall (placed f) ss ->
  _wrap_unsorted_loop ss f u s = Ok (u, s ++ ss).
Proof.
  intros Hss. revert s. induction Hss as [|o ss (Hu & v & Hv & Hn) _ IH];
    intros s; simpl.
  { by rewrite app_nil_r. }
  rewrite Hu, Hv. simpl. rewrite Hn, IH. by rewrite <- app_assoc.
Qed.

Lemma _wrap_unsorted_loop_markers f us ss u s :
  Forall (fun o => is_unsortable o = true) us ->
  Forall (placed f) ss ->
  _wrap_unsorted_loop (us ++ ss) f u s = Ok (u ++ us, s ++ ss).
Proof.
  intros Hus Hss. revert u. induction Hus as [|o us Ho _ IH]; intros u; simpl.
  { rewrite app_nil_r. by apply _wrap_unsorted_loop_sorted. }
  rewrite Ho, IH. by rewrite <- app_assoc.
Qed.

(** X7: partitioning the reattached result again returns the same two
    lists: markers are not wrapped again, sortable items are not
    set aside. *)
Theorem wrap_unsorted_again itr f U S :
  _wrap_unsorted itr f = Ok (U, S) ->
  _wrap_unsorted (chain U S) f = Ok (U, S).
Proof.
  intros HU.
  destruct (partition_facts itr f U S HU)
    as (HfU & HfS & Hm & Hp).
  unfold _wrap_unsorted, chain. rewrite HfU. simpl.
  rewrite (_wrap_unsorted_loop_markers f (items U) (items S) [] [] Hm Hp).
  simpl. rewrite HfS. unfold iter_list.
  rewrite (stream_eta U) at 2. rewrite (stream_eta S) at 2.
  by rewrite HfU, HfS.
Qed.

(** *** The order function of [order_value] *)







(** *** The output of [select] *)




Lemma sorted_keys_Ok key itr reverse_ out :
  sorted itr key reverse_ = Ok out ->
  Forall (fun o => exists v, key o = Ok v) (items itr).
Proof.
  intros Hs. apply sorted_Ok in Hs as (_ & keyed & _ & Hk & _).
  revert keyed Hk. induction (items itr) as [|x xs IH]; intros keyed; simpl.
  { constructor. }
  destruct (key x) as [k|] eqn:Ek; simpl; [|discriminate].
  destruct (decorate key xs) as [r|] eqn:Er; simpl; [|discriminate].
  intros _. constructor; [eauto|by eapply IH].
Qed.

Lemma select_with_order_function src a log0 pre log1 f itr log out :
  select_filtered src a = (log0, Ok pre) ->
  _handle_generate_order_by pre (order_by a) (order_key a) (order_value a)
    (default_ a) = (log1, Ok (Some f, itr)) ->
  select src a = (log, Ok out) ->
  exists l, select_ordered a pre = (l, Ok out).
Proof.
  intros Hfil Hh Hsel. unfold select in Hsel.
  rewrite (M_bind_eq _ _ _ _ Hfil), (handle_ordering_requested _ _ _ _ Hh) in Hsel.
  destruct (select_ordered a pre) as [l r]. simpl in Hsel.
  injection Hsel as _ ->. eauto.
Qed.


(** X10: with [drop_unsorted], once an order function is chosen, the
    output holds no marker and no item whose order value is None. *)
Theorem drop_unsorted_output_placed src a log0 pre log1 f itr log out :
  drop_unsorted a = true ->
  select_filtered src a = (log0, Ok pre) ->
  _handle_generate_order_by pre (order_by a) (order_key a) (order_value a)
    (default_ a) = (log1, Ok (Some f, itr)) ->
  select src a = (log, Ok out) ->
  Forall (placed f) (items out).
Proof.
  intros Hdrop Hfil Hh Hsel.
  destruct (select_with_order_function _ _ _ _ _ _ _ _ _ Hfil Hh Hsel) as [l E].
  destruct (select_ordered_sorted _ _ _ _ _ _ _ E Hh)
    as (srt & _ & _ & Hs & Hitems).
  pose proof (sorted_keys_Ok _ _ _ _ Hs) as Hkeys. simpl in Hkeys.
  apply sorted_perm in Hs. simpl in Hs.
  unfold set_aside, to_sort in *. rewrite Hdrop in *. simpl in *.
  rewrite Forall_forall in Hkeys.
  apply Forall_forall. intros o Ho. rewrite Hitems in Ho.
  apply elem_of_truncate in Ho.
  assert (o ∈ sorted_part f (items pre)) as Ho'.
  { rewrite <- Hs. destruct (reverse_ a); [by rewrite app_nil_r in Ho|done]. }
  destruct (Hkeys o Ho') as [v Hv].
  apply elem_of_List_filter in Ho' as [_ Hun].
  unfold unplaced, key_is_none in Hun. rewrite Hv in Hun.
  apply negb_true_iff, orb_false_iff in Hun as [Hu Hn].
  split; [done|]. eauto.
Qed.





(** X12: with [order_key] in effect, a first item that is None is taken
    for an exhausted iterator: [select] returns the filtered stream as it
    is, neither sorted nor reversed nor cut to the limit. *)
Theorem order_key_first_item_None src a k log pre first rest :
  order_by a = None -> order_key a = Some k ->
  select_filtered src a = (log, Ok pre) ->
  items pre = first :: rest -> is_none first = true ->
  select src a = (log, Ok pre).
Proof.
  intros Hby Hkey Hfil Hitems Hnone. unfold select.
  rewrite (M_bind_eq _ _ _ _ Hfil).
  unfold ordering_requested, select_ordered, _handle_generate_order_by.
  rewrite Hby, Hkey. unfold _peek_iter. rewrite Hitems.
  unfold lift, mbind, M_bind. rewrite Hnone. simpl. by rewrite app_nil_r.
Qed.

Lemma select_provenance_surviving src xs a log out :
  iterand_of src = Iterable xs ->
  select src a = (log, Ok out) ->
  Forall (fun o => exists i, i ∈ surviving a xs /\ wrapped_as i o) (items out).
Proof.
  intros Hsrc Hsel.
  destruct (select_Iterable src xs a Hsrc) as (wlog & pre & Hfil & Hpre & _ & Heq).
  assert (forall o, o ∈ items pre ->
            exists i, i ∈ surviving a xs /\ wrapped_as i o) as Hin.
  { intros o Ho. exists o. split; [by rewrite <- Hpre|by left]. }
  rewrite Heq in Hsel. apply Forall_forall. intros o Ho.
  destruct (ordering_requested a).
  - destruct (select_ordered a pre) as [l1 r] eqn:E. simpl in Hsel.
    injection Hsel as <- ->.
    destruct (select_ordered_Ok _ _ _ _ E) as ([f|] & Hh & Hout).
    + destruct (select_ordered_sorted _ _ _ _ _ _ _ E Hh) as (srt & _ & _ & Hs & Hitems).
      apply sorted_perm in Hs. simpl in Hs.
      rewrite Hitems in Ho. apply elem_of_truncate in Ho.
      assert (o ∈ srt \/ o ∈ set_aside a f (items pre)) as [Ho'|Ho'].
      { destruct (reverse_ a); apply elem_of_app in Ho; tauto. }
      * rewrite Hs in Ho'. by apply Hin, (elem_of_to_sort a f).
      * apply elem_of_set_aside in Ho' as (_ & i & Hi & Hw).
        exists i. split; [by rewrite <- Hpre|done].
    + subst out. by apply Hin.
  - destruct (select_unordered a pre) as [l1 r] eqn:E. simpl in Hsel.
    injection Hsel as <- ->.
    apply select_unordered_Ok in E as (_ & Hitems & _).
    rewrite Hitems in Ho. apply elem_of_truncate in Ho. apply Hin.
    destruct (reverse_ a); [|done]. by apply list_elem_of_In, in_rev, list_elem_of_In.
Qed.

(** X13: every item of the output satisfies the [where] predicate, or is
    the marker wrapped around an item that satisfies it. *)
Theorem where_respected src xs a w log out :
  iterand_of src = Iterable xs ->
  where_ a = Some w ->
  select src a = (log, Ok out) ->
  Forall (fun o => exists i, i ∈ xs /\ w i = true /\ wrapped_as i o) (items out).
Proof.
  intros Hsrc Hw Hsel.
  pose proof (select_provenance_surviving src xs a log out Hsrc Hsel) as Hprov.
  eapply Forall_impl; [exact Hprov|]. simpl. intros o (i & Hi & Hwr).
  exists i. unfold surviving in Hi. rewrite Hw in Hi.
  apply elem_of_List_filter in Hi as [Hi Hp].
  apply andb_true_iff in Hp as [_ Hp]. split; [|done].
  destruct (raise_exceptions a); [|done].
  eapply elem_of_sublist; [exact Hi|apply until_error_sublist].
Qed.

(** X14: the ordering arguments take precedence in the order [order_by],
    [order_key], [order_value]: with [order_by] given the other two are
    ignored, and with [order_key] given and no [order_by], [order_value]
    is ignored. *)
Theorem ordering_precedence src a :
  (forall g k w, order_by a = Some g ->
     select src (with_order_key k a) = select src a
     /\ select src (with_order_value w a) = select src a)
  /\ (forall k w, order_by a = None -> order_key a = Some k ->
        select src (with_order_value w a) = select src a).
Proof.
  split.
  - intros g k w Hby.
    unfold select, ordering_requested, select_ordered, select_limit,
      _handle_generate_order_by. simpl. by rewrite !Hby.
  - intros k w Hby Hkey.
    unfold select, ordering_requested, select_ordered, select_limit,
      _handle_generate_order_by. simpl. by rewrite !Hby, !Hkey.
Qed.



End Further.

(** ** Locating a function by name *)
Section LocateProperties.
Context `{Importer}.

Lemma contains_char_rindex c s :
  contains_char c s = false <-> rindex c s = None.
Proof.
  induction s as [|c' s IH]; simpl; [done|].
  rewrite orb_false_iff, IH.
  destruct (rindex c s), (Ascii.eqb c' c); intuition congruence.
Qed.

Lemma rindex_split c s i :
  rindex c s = Some i ->
  exists m f, s = (m ++ String c f)%string /\ String.length m = i
              /\ contains_char c f = false.
Proof.
  revert i. induction s as [|c' s IH]; intros i; simpl; [done|].
  destruct (rindex c s) as [j|] eqn:E.
  - intros [= <-]. destruct (IH j eq_refl) as (m & f & -> & Hm & Hf).
    exists (String c' m), f. simpl. by rewrite Hm.
  - destruct (Ascii.eqb c' c) eqn:Ec; [|done]. intros [= <-].
    apply Ascii.eqb_eq in Ec as ->.
    exists EmptyString, s. split; [done|]. split; [done|].
    by apply contains_char_rindex.
Qed.

Lemma rindex_append c m f :
  contains_char c f = false ->
  rindex c (m ++ String c f) = Some (String.length m).
Proof.
  intros Hf. induction m as [|c' m IH]; simpl.
  - apply contains_char_rindex in Hf. by rewrite Hf, Ascii.eqb_refl.
  - by rewrite IH.
Qed.

Lemma contains_char_append c m f :
  contains_char c (m ++ String c f) = true.
Proof.
  induction m as [|c' m IH]; simpl.
  - by rewrite Ascii.eqb_refl.
  - rewrite IH. apply orb_true_r.
Qed.

Lemma substring_all s : String.substring 0 (String.length s) s = s.
Proof. induction s as [|c s IH]; simpl; [done|by rewrite IH]. Qed.

Lemma slice_to_append m s : slice_to (String.length m) (m ++ s) = m.
Proof.
  unfold slice_to. induction m as [|c m IH]; simpl.
  - by destruct s.
  - by rewrite IH.
Qed.

Lemma slice_from_append c m f :
  slice_from (String.length m + 1) (m ++ String c f) = f.
Proof.
  unfold slice_from. induction m as [|c' m IH]; simpl.
  - rewrite Nat.sub_0_r. apply substring_all.
  - exact IH.
Qed.

(** X17: the function that [locate_function] returns belongs to the
    module that was imported under the given name: it is a member of
    that name that is a function, or, when there is none, the value of
    the attribute of that name, which is callable and not None. *)
Theorem locate_function_found module_name function_name f :
  locate_function module_name function_name = Ok f ->
  exists mod_,
    import_module module_name = inr mod_
    /\ ((function_name, f) ∈ mod_members mod_ /\ isfunction f = true
        \/ Forall (fun m => m.1 = function_name -> isfunction m.2 = false)
             (mod_members mod_)
           /\ module_getattr mod_ function_name = inr f
           /\ is_none f = false /\ callable f = true).
Proof.
  unfold locate_function.
  destruct (import_module module_name) as [e|mod_]; [done|].
  intros Hf. exists mod_. split; [done|].
  destruct (List.find _ (mod_members mod_)) as [[n g]|] eqn:Efind.
  - injection Hf as ->. left.
    apply find_some in Efind as [Hin Hp]. simpl in Hp.
    apply andb_true_iff in Hp as [Hfun ->%String.eqb_eq].
    split; [by apply list_elem_of_In|done].
  - right.
    destruct (module_getattr mod_ function_name) as [e|func]; [done|].
    destruct (negb (is_none func) && callable func) eqn:E; [|done].
    injection Hf as ->.
    apply andb_true_iff in E as [Hn%negb_true_iff Hc].
    split; [|done]. apply Forall_forall. intros m Hm%list_elem_of_In Hname.
    pose proof (find_none _ _ Efind m Hm) as Hp. simpl in Hp.
    apply andb_false_iff in Hp as [Hp|Hp]; [done|].
    apply String.eqb_neq in Hp. done.
Qed.


(** X19: [locate_qualified_function] splits the name at its last dot: a
    name without a dot is a QueryException, and every other name is
    [m.f] for a module name [m] and a function name [f] without a dot,
    and is looked up as [locate_function m f]. *)
Theorem locate_qualified_function_split qualified_name :
  contains_char "." qualified_name = false
  /\ locate_qualified_function qualified_name
     = Raise (QueryException
                [Lit "Could not find a '.' in the function name, e.g. my.reddit.rexport.comments"])
  \/ exists m f,
       qualified_name = (m ++ String "." f)%string
       /\ contains_char "." f = false
       /\ locate_qualified_function qualified_name = locate_function m f.
Proof.
  unfold locate_qualified_function.
  destruct (contains_char "." qualified_name) eqn:Ec; simpl; [right|by left].
  destruct (rindex "." qualified_name) as [i|] eqn:Er.
  - destruct (rindex_split _ _ _ Er) as (m & f & -> & <- & Hf).
    exists m, f. split; [done|]. split; [done|].
    by rewrite slice_to_append, slice_from_append.
  - apply contains_char_rindex in Er. congruence.
Qed.

(** X20: a qualified name [m.f] whose last part [f] has no dot is looked
    up as the function [f] of the module [m], whatever dots [m] has. *)
Theorem locate_qualified_function_append m f :
  contains_char "." f = false ->
  locate_qualified_function (m ++ String "." f) = locate_function m f.
Proof.
  intros Hf. unfold locate_qualified_function.
  rewrite contains_char_append, (rindex_append _ _ _ Hf). simpl.
  by rewrite slice_to_append, slice_from_append.
Qed.

End LocateProperties.

(** ** The tests of the module, run on the embedding *)

#[local] Existing Instance bare.

Example test_basic_orders_order_key :
  select (Given (Iterable [_Int 3; _Int 1; _Int 5; _Int 2; _Int 4]))
    (with_order_key "x" kwargs)
  = ([], Ok (iter_list [_Int 1; _Int 2; _Int 3; _Int 4; _Int 5])).
Proof. reflexivity. Qed.

Example test_basic_orders_limit :
  select (Given (Iterable [_Int 3; _Int 1; _Int 5; _Int 2; _Int 4]))
    (with_limit 2
       (with_order_by (fun obj => getattr_default obj "x" VNone)
          (with_where filter_two kwargs)))
  = ([], Ok (iter_list [_Int 1; _Int 3])).
Proof. reflexivity. Qed.

Example test_basic_orders_empty :
  select (Given (Iterable [_Int 3; _Int 1; _Int 5; _Int 2; _Int 4]))
    (with_where is_none (with_order_key "x" kwargs))
  = ([], Ok (iter_list [])).
Proof. reflexivity. Qed.

Example test_couldnt_determine_order :
  select (Given (Iterable [VObj KPlain "object" [] []]))
    (with_order_value is_datetime kwargs)
  = ([], Ok (iter_list [VUnsortable (VObj KPlain "object" [] [])])).
Proof. reflexivity. Qed.

Example test_order_value :
  select (Given (Iterable _mixed_iter)) (with_order_value is_datetime kwargs)
  = ([], Ok (iter_list
               [ _B 199505; _A 200504 2 (-5); _A 200505 10 2; _A 200903 12 1;
                 _A 200905 5 10; _B 201505 ])).
Proof. reflexivity. Qed.

Example test_key_clash :
  select (Given (Iterable _mixed_iter)) (with_order_key "y" kwargs)
  = ([], Raise (TypeError [Lit "'<' not supported between instances"])).
Proof. reflexivity. Qed.

Example test_wrap_unsortable :
  class_names (select (Given (Iterable _mixed_iter)) (with_order_key "z" kwargs))
  = Ok [ CUnsortable; CUnsortable; CUser KNamedTuple "_A";
         CUser KNamedTuple "_A"; CUser KNamedTuple "_A"; CUser KNamedTuple "_A" ].
Proof. reflexivity. Qed.

Example test_disabled_wrap_unsorted :
  select (Given (Iterable _mixed_iter))
    (with_wrap_unsorted false (with_order_key "z" kwargs))
  = ([], Raise (TypeError [Lit "'<' not supported between instances"])).
Proof. reflexivity. Qed.

Example test_drop_unsorted :
  class_names
    (select (Given (Iterable _mixed_iter))
       (with_drop_unsorted true (with_wrap_unsorted false (with_order_key "z" kwargs))))
  = Ok [ CUser KNamedTuple "_A"; CUser KNamedTuple "_A";
         CUser KNamedTuple "_A"; CUser KNamedTuple "_A" ].
Proof. reflexivity. Qed.

Example test_drop_exceptions :
  length _mixed_iter_errors = 7
  /\ (length <$> class_names
        (select (Given (Iterable _mixed_iter_errors))
           (with_drop_exceptions true (with_order_value is_datetime kwargs))))
     = Ok 6.
Proof. split; reflexivity. Qed.

Example test_raise_exceptions :
  select (Given (Iterable _mixed_iter_errors))
    (with_raise_exceptions true (with_order_value is_datetime kwargs))
  = ([], Raise (Reraised (VErr "RuntimeError" "Unhandled error!"))).
Proof. reflexivity. Qed.

Example test_wrap_unsortable_with_error_and_warning :
  let e := VErr "RuntimeError" "Unhandled error!" in
  let r := select (Given (Iterable _mixed_iter_errors))
             (with_order_value is_datetime kwargs) in
  r.1 = [Low (exception_diag e)]
  /\ ((fun s => take 1 (items s)) <$> r.2) = Ok [VUnsortable e]
  /\ (length <$> class_names r) = Ok 7.
Proof. repeat split; reflexivity. Qed.

Example test_order_default_param :
  (fun s => (length (items s), last (items s)))
    <$> (select (Given (Iterable _mixed_iter_errors))
           (with_reverse true
              (with_default (VDatetime 197001)
                 (with_order_value is_datetime kwargs)))).2
  = Ok (7, Some (VErr "RuntimeError" "Unhandled error!")).
Proof. reflexivity. Qed.

Example test_no_recursive_unsortables :
  let a := with_order_key "z" kwargs in
  exists res,
    (select (Given (Iterable _mixed_iter_errors)) (with_reverse true a)).2 = Ok res
    /\ (length <$> class_names
          (select (Given (Iterable (items res))) (with_drop_unsorted true a)))
       = Ok 4
    /\ exists wrapped,
         (select (Given (Iterable (items res))) a).2 = Ok wrapped
         /\ length (items wrapped) = 7
         /\ forallb well_wrapped (items wrapped) = true.
Proof.
  eexists. split; [reflexivity|]. split; [reflexivity|].
  eexists. split; [reflexivity|]. split; reflexivity.
Qed.

(** A function built by [order_key] from a mapping calls [get] on every
    item, also on a record that has none. *)
Example order_key_mapping_then_record :
  select (Given (Iterable [VDict [("x", VInt 1)]; _Int 2]))
    (with_order_key "x" kwargs)
  = ([], Raise (AttributeError (_Int 2) "get")).
Proof. reflexivity. Qed.

(** ** The properties at concrete inputs *)

(** C1: with a [where] predicate the output of [select] is shorter than
    the input although neither [drop_exceptions] nor [drop_unsorted] is
    set (test_basic_orders filters one of its records out this way). *)
Lemma total_accounting_where_counterexample :
  let xs := [_Int 1; _Int 2; _Int 3] in
  let a := with_where filter_two kwargs in
  select (Given (Iterable xs)) a = ([], Ok (iter_list [_Int 1; _Int 3]))
  /\ drop_exceptions a = false /\ drop_unsorted a = false
  /\ length [_Int 1; _Int 3] <> length xs.
Proof. repeat split; try reflexivity. simpl. lia. Qed.

Lemma total_accounting_witness :
  let xs := [_Int 2; _B 7; _Int 1] in
  let a := with_order_key "x" kwargs in
  let out := iter_list [VUnsortable (_B 7); _Int 1; _Int 2] in
  select (Given (Iterable xs)) a = ([], Ok out)
  /\ fault out = None
  /\ length (items out) = length xs
  /\ exists l, l ≡ₚ xs /\ Forall2 wrapped_as l (items out).
Proof.
  intros xs a out. split; [reflexivity|].
  apply (total_accounting (Given (Iterable xs)) xs a [] out);
    try reflexivity.
  intros _. repeat constructor.
Defined.



(** C3: a marker that wraps a marker in the input is handed on as it is,
    so the output holds a marker wrapping a marker. *)
Lemma no_double_wrapping_counterexample :
  let nested := VUnsortable (VUnsortable (_Int 1)) in
  select (Given (Iterable [_Int 2; nested])) (with_order_key "x" kwargs)
  = ([], Ok (iter_list [nested; _Int 2]))
  /\ well_wrapped nested = false.
Proof. split; reflexivity. Qed.

Lemma no_double_wrapping_witness :
  let xs := [_Int 2; VUnsortable (_B 7); _Int 1] in
  let a := with_order_key "x" kwargs in
  let out := iter_list [VUnsortable (_B 7); _Int 1; _Int 2] in
  select (Given (Iterable xs)) a = ([], Ok out)
  /\ Forall (fun o => well_wrapped o = true) (items out).
Proof.
  intros xs a out. split; [reflexivity|].
  apply (no_double_wrapping (Given (Iterable xs)) xs a [] out);
    [reflexivity|repeat constructor|reflexivity].
Defined.



(** C5: when the first item is an Err, the factory returns the function
    that reports absence instead of failing: [select] warns and returns
    the Err wrapped in a marker, although the key is not found on it. *)
Lemma order_key_error_first_counterexample :
  let e := VErr "RuntimeError" "Unhandled error!" in
  select (Given (Iterable [e])) (with_order_key "z" kwargs)
  = ([Low (exception_diag e)], Ok (iter_list [VUnsortable e]))
  /\ key_found e "z" = false.
Proof. split; reflexivity. Qed.

Lemma order_key_not_found_witness :
  select (Given (Iterable [_B 5])) (with_order_key "z" kwargs)
  = ([], Raise (QueryException
                  [ Lit "Error while ordering: could not find "; Lit "z";
                    Lit " on "; StrOf (_B 5) ])).
Proof.
  apply (order_key_not_found (Given (Iterable [_B 5]))
           (with_order_key "z" kwargs) "z" [] (iter_list [_B 5]) (_B 5) []);
    reflexivity.
Defined.





Lemma select_without_ordering_witness :
  let xs := [_Int 1; _Int 2; _Int 3; _Int 4; _Int 5] in
  let a := with_reverse true (with_where filter_two kwargs) in
  select (Given (Iterable xs)) a
  = ([], Ok (iter_list [_Int 5; _Int 4; _Int 3; _Int 1]))
  /\ items (iter_list [_Int 5; _Int 4; _Int 3; _Int 1])
     = truncate (limit a) (rev (surviving a xs)).
Proof.
  intros xs a. split; [reflexivity|].
  apply (select_without_ordering (Given (Iterable xs)) xs a []
           (iter_list [_Int 5; _Int 4; _Int 3; _Int 1]));
    reflexivity.
Defined.

(** ** The further properties at concrete inputs *)

Lemma attribute_func_returns_match_witness :
  attribute_func (_B 2015) is_datetime VNone = Some (EGetattr "y" VNone)
  /\ exists v, apply_extractor (EGetattr "y" VNone) (_B 2015) = Ok v
               /\ is_datetime v = true.
Proof.
  split; [reflexivity|].
  apply (attribute_func_returns_match (_B 2015) is_datetime VNone
           (EGetattr "y" VNone)); [|reflexivity].
  vm_compute. apply NoDup_cons_2; [rewrite elem_of_nil; tauto|apply NoDup_nil_2].
Defined.

Lemma wrap_unsorted_partition_witness :
  let itr := iter_list [_Int 2; _B 7; _Int 1] in
  let f := OFExtract (EGetattr "x" VNone) in
  let U := iter_list [VUnsortable (_B 7)] in
  let S := iter_list [_Int 2; _Int 1] in
  _wrap_unsorted itr f = Ok (U, S)
  /\ length (items U) + length (items S) = length (items itr)
  /\ Forall (placed f) (items S)
  /\ sublist (items S) (items itr).
Proof.
  intros itr f U S. split; [reflexivity|].
  assert (_wrap_unsorted itr f = Ok (U, S)) as Hw by reflexivity.
  destruct (wrap_unsorted_partition itr f U S Hw)
    as (_ & _ & Hlen & _ & Hplaced & Hsub).
  split; [exact Hlen|]. split; [exact Hplaced|exact Hsub].
Defined.

Lemma wrap_drop_agree_witness :
  let itr := iter_list [_Int 2; _B 7; _Int 1] in
  let f := OFExtract (EGetattr "x" VNone) in
  _drop_unsorted itr f = iter_list [_Int 2; _Int 1].
Proof.
  intros itr f.
  refine (wrap_drop_agree itr f (iter_list [VUnsortable (_B 7)])
           (iter_list [_Int 2; _Int 1]) _); reflexivity.
Defined.

Lemma wrap_unsorted_again_witness :
  let f := OFExtract (EGetattr "x" VNone) in
  let U := iter_list [VUnsortable (_B 7)] in
  let S := iter_list [_Int 2; _Int 1] in
  _wrap_unsorted (chain U S) f = Ok (U, S).
Proof.
  intros f U S.
  refine (wrap_unsorted_again (iter_list [_Int 2; _B 7; _Int 1]) f U S _);
    reflexivity.
Defined.


Lemma drop_unsorted_output_placed_witness :
  let xs := [_Int 2; _B 7; _Int 1] in
  let a := with_drop_unsorted true (with_order_key "x" kwargs) in
  let out := iter_list [_Int 1; _Int 2] in
  select (Given (Iterable xs)) a = ([], Ok out)
  /\ Forall (placed (OFExtract (EGetattr "x" VNone))) (items out).
Proof.
  intros xs a out. split; [reflexivity|].
  refine (drop_unsorted_output_placed (Given (Iterable xs)) a [] (iter_list xs)
           [] (OFExtract (EGetattr "x" VNone)) (iter_list xs) [] out
           _ _ _ _); reflexivity.
Defined.


Lemma order_key_first_item_None_witness :
  let xs := [VNone; _Int 2; _Int 1] in
  let a := with_limit 1 (with_reverse true (with_order_key "x" kwargs)) in
  select (Given (Iterable xs)) a = ([], Ok (iter_list xs)).
Proof.
  intros xs a.
  refine (order_key_first_item_None (Given (Iterable xs)) a "x" []
           (iter_list xs) VNone [_Int 2; _Int 1]
           _ _ _ _ _); reflexivity.
Defined.

Lemma where_respected_witness :
  let xs := [_Int 3; _Int 2; _Int 1] in
  let a := with_where filter_two (with_order_key "x" kwargs) in
  let out := iter_list [_Int 1; _Int 3] in
  select (Given (Iterable xs)) a = ([], Ok out)
  /\ Forall (fun o => exists i, i ∈ xs /\ filter_two i = true /\ wrapped_as i o)
       (items out).
Proof.
  intros xs a out. split; [reflexivity|].
  refine (where_respected (Given (Iterable xs)) xs a filter_two [] out
           _ _ _); reflexivity.
Defined.

Lemma ordering_precedence_witness :
  let src := Given (Iterable [_Int 2; _Int 1]) in
  let a := with_order_by (fun o => o) kwargs in
  select src (with_order_key "x" a) = select src a
  /\ select src (with_order_value is_datetime (with_order_key "x" kwargs))
     = select src (with_order_key "x" kwargs).
Proof.
  intros src a. split.
  - refine (proj1 (proj1 (ordering_precedence src a) (fun o => o) "x"
                    is_datetime _)); reflexivity.
  - refine (proj2 (ordering_precedence src (with_order_key "x" kwargs)) "x"
             is_datetime _ _); reflexivity.
Defined.



Lemma locate_function_found_witness :
  let f := VOpaque "function lazy_items" in
  @locate_function one_module "my.demo" "lazy_items" = Ok f
  /\ exists mod_,
       @import_module one_module "my.demo" = inr mod_
       /\ (("lazy_items", f) ∈ mod_members mod_
           /\ @isfunction one_module f = true
           \/ Forall (fun m => m.1 = "lazy_items"
                               -> @isfunction one_module m.2 = false)
                (mod_members mod_)
              /\ module_getattr mod_ "lazy_items" = inr f
              /\ is_none f = false /\ @callable one_module f = true).
Proof.
  intros f. split; [reflexivity|].
  refine (@locate_function_found one_module "my.demo" "lazy_items" f _);
    reflexivity.
Defined.


Lemma locate_qualified_function_append_witness :
  @locate_qualified_function one_module "my.demo.items"
  = @locate_function one_module "my.demo" "items".
Proof.
  refine (@locate_qualified_function_append one_module "my.demo" "items" _);
    reflexivity.
Defined.
